(** * Stock and price synchronisation (seller.py, market.py)

    A shallow embedding of the reconciliation core of the two scripts
    (price normaliser, batcher, stock builder, price builder) and of the
    two entry points, followed by the properties of the specification.

    Strings are byte strings ([string]); a Python [str] is read through its
    UTF-8 encoding, under which the characters the code inspects (the ASCII
    digits, ['.'], the ASCII white space) keep their one-byte codes and no
    byte of another character collides with them. [int] alone looks at the
    characters of the other scripts, and decodes them. *)

From Stdlib Require Import ZArith Ascii String List Lia.
From stdpp Require Import base option list strings pretty gmap.

Local Open Scope Z_scope.
Local Open Scope string_scope.
Local Open Scope list_scope.

(** ** The fragment of the Python runtime the scripts rely on *)

Module Py.

(** Exception classes the scripts raise or catch; all of them derive from
    [Exception]. [ConnectionError] and [ReadTimeout] are the classes of
    [requests.exceptions]; [EnvError] is the one of [environs]. *)
Inductive exn : Set :=
| ReadTimeout
| ConnectionError
| HTTPError
| EnvError
| ValueError
| TypeError
| AttributeError.

(** Outcome of an expression that may raise. *)
Inductive result (A : Type) : Type :=
| Ok (a : A)
| Raise (e : exn).
Global Arguments Ok {A} a.
Global Arguments Raise {A} e.

Definition bind {A B} (r : result A) (k : A → result B) : result B :=
  match r with
  | Ok a => k a
  | Raise e => Raise e
  end.

(** A cell of a spreadsheet row as [dict.get] hands it out: text, an
    integer, or [None] when the column is missing. Cells that hold a
    floating-point number are outside the model. *)
Inductive pyval : Set :=
| PStr (s : string)
| PInt (z : Z)
| PNone.

(** [str(v)] *)
Definition str (v : pyval) : string :=
  match v with
  | PStr s => s
  | PInt z => pretty z
  | PNone => "None"
  end.

Definition is_digit (c : ascii) : bool :=
  let n := nat_of_ascii c in (48 <=? n)%nat && (n <=? 57)%nat.

Definition digit_value (c : ascii) : Z := Z.of_nat (nat_of_ascii c) - 48.

(** The white space of ASCII that [int] skips around a number: TAB..CR
    and the blank. *)
Definition is_space (c : ascii) : bool :=
  let n := nat_of_ascii c in
  ((9 <=? n)%nat && (n <=? 13)%nat) || (n =? 32)%nat.

Fixpoint lstrip (s : string) : string :=
  match s with
  | String c s' => if is_space c then lstrip s' else s
  | EmptyString => EmptyString
  end.

Fixpoint rstrip (s : string) : string :=
  match s with
  | EmptyString => EmptyString
  | String c s' =>
      match rstrip s' with
      | EmptyString => if is_space c then EmptyString else String c EmptyString
      | t => String c t
      end
  end.

Definition strip (s : string) : string := rstrip (lstrip s).

(** Decimal digits, single underscores allowed between two digits.
    [us] tells that the previous character was an underscore. *)
Fixpoint digits_value (acc : Z) (us : bool) (s : string) : option Z :=
  match s with
  | EmptyString => if us then None else Some acc
  | String c s' =>
      if is_digit c then digits_value (10 * acc + digit_value c) false s'
      else if Ascii.eqb c "_" && negb us then digits_value acc true s'
      else None
  end.

Definition unsigned_value (s : string) : option Z :=
  match s with
  | String c s' => if is_digit c then digits_value (digit_value c) false s' else None
  | EmptyString => None
  end.

(** The value of a byte, and of a continuation byte of UTF-8. *)
Definition byte (c : ascii) : Z := Z.of_nat (nat_of_ascii c).

Definition trail (c : ascii) : option Z :=
  if ((128 <=? byte c) && (byte c <? 192))%Z then Some (byte c - 128) else None.

(** A code point that needs the number of bytes it was written with. *)
Definition scalar (least cp : Z) : option Z :=
  if (least <=? cp)%Z then Some cp else None.

(** The code points of a text, read off its UTF-8 bytes; a byte string
    that is the encoding of no text has none. *)
Fixpoint code_points (s : string) : option (list Z) :=
  match s with
  | EmptyString => Some []
  | String c s1 =>
      let b := byte c in
      if (b <? 128)%Z then cons b <$> code_points s1
      else if (b <? 192)%Z then None
      else if (b <? 224)%Z then
        match s1 with
        | String c1 s2 =>
            t1 ← trail c1;
            cp ← scalar 128 (64 * (b - 192) + t1);
            cons cp <$> code_points s2
        | _ => None
        end
      else if (b <? 240)%Z then
        match s1 with
        | String c1 (String c2 s3) =>
            t1 ← trail c1; t2 ← trail c2;
            cp ← scalar 2048 (4096 * (b - 224) + 64 * t1 + t2);
            cons cp <$> code_points s3
        | _ => None
        end
      else if (b <? 248)%Z then
        match s1 with
        | String c1 (String c2 (String c3 s4)) =>
            t1 ← trail c1; t2 ← trail c2; t3 ← trail c3;
            cp ← scalar 65536 (262144 * (b - 240) + 4096 * t1 + 64 * t2 + t3);
            cons cp <$> code_points s4
        | _ => None
        end
      else None
  end.

(** The decimal digits of Unicode 14.0, the version of CPython 3.11: the
    code point of the zero of each run of the ten digits of a script. *)
Definition decimal_zeros : list Z :=
  [48; 1632; 1776; 1984; 2406; 2534; 2662; 2790; 2918; 3046; 3174; 3302;
   3430; 3558; 3664; 3792; 3872; 4160; 4240; 6112; 6160; 6470; 6608; 6784;
   6800; 6992; 7088; 7232; 7248; 42528; 43216; 43264; 43472; 43504; 43600;
   44016; 65296; 66720; 68912; 69734; 69872; 69942; 70096; 70384; 70736;
   70864; 71248; 71360; 71472; 71904; 72016; 72784; 73040; 73120; 92768;
   92864; 93008; 120782; 120792; 120802; 120812; 120822; 123200; 123632;
   125264; 130032].

(** [Py_UNICODE_TODECIMAL] *)
Definition to_decimal (cp : Z) : option Z :=
  (λ zero, cp - zero)
    <$> find (λ zero, ((zero <=? cp) && (cp <? zero + 10))%Z) decimal_zeros.

(** The white space of Unicode beyond ASCII. *)
Definition is_unicode_space (cp : Z) : bool :=
  bool_decide (cp ∈ [133; 160; 5760; 8232; 8233; 8239; 8287; 12288])
  || ((8192 <=? cp) && (cp <=? 8202))%Z.

(** What [int] reads a character as: an ASCII character as itself, a
    blank of another script as the blank, a decimal digit of another
    script as the ASCII digit of its value; any other character is
    refused. *)
Definition to_ascii (cp : Z) : option ascii :=
  if (cp <? 127)%Z then Some (ascii_of_nat (Z.to_nat cp))
  else if is_unicode_space cp then Some " "%char
  else (λ d, ascii_of_nat (Z.to_nat (48 + d))) <$> to_decimal cp.

Fixpoint ascii_form (cps : list Z) : option string :=
  match cps with
  | [] => Some EmptyString
  | cp :: cps' => c ← to_ascii cp; String c <$> ascii_form cps'
  end.

(** The number of decimal digits [int] converts at most (the default of
    [sys.get_int_max_str_digits()]). *)
Definition max_str_digits : Z := 4300.

Fixpoint digit_count (s : string) : Z :=
  match s with
  | EmptyString => 0
  | String c s' => (if is_digit c then 1 else 0) + digit_count s'
  end.

(** An integer literal in base 10: surrounding white space, an optional
    sign, then the digits. *)
Definition literal_value (s : string) : option Z :=
  match strip s with
  | String "-" s' => Z.opp <$> unsigned_value s'
  | String "+" s' => unsigned_value s'
  | s' => unsigned_value s'
  end.

(** [int(s)] for a text [s], as CPython 3.11 computes it: the characters
    are read as ASCII ([_PyUnicode_TransformDecimalAndSpaceToASCII]), then
    the literal is converted ([PyLong_FromString]) unless it has more
    digits than the interpreter takes. [None] stands for [ValueError]. *)
Definition int_of_str (s : string) : option Z :=
  cps ← code_points s;
  t ← ascii_form cps;
  if (digit_count t <=? max_str_digits)%Z then literal_value t else None.

(** [int(v)] *)
Definition int (v : pyval) : result Z :=
  match v with
  | PStr s => match int_of_str s with
              | Some z => Ok z
              | None => Raise ValueError
              end
  | PInt z => Ok z
  | PNone => Raise TypeError
  end.

(** [s.split(sep)] for a separator of one character: the pieces between
    the occurrences of [sep]; never an empty list. *)
Fixpoint split (sep : ascii) (s : string) : list string :=
  match s with
  | EmptyString => [EmptyString]
  | String c s' =>
      if Ascii.eqb c sep then EmptyString :: split sep s'
      else match split sep s' with
           | p :: ps => String c p :: ps
           | [] => [String c EmptyString]
           end
  end.

(** [re.sub("[^0-9]", repl, s)]: every character outside ['0'..'9'] is
    one match of the pattern and is replaced by [repl]. *)
Fixpoint re_sub_non_digit (repl : string) (s : string) : string :=
  match s with
  | EmptyString => EmptyString
  | String c s' =>
      if is_digit c then String c (re_sub_non_digit repl s')
      else repl +:+ re_sub_non_digit repl s'
  end.

(** [x in l] for a list of texts. *)
Definition contains (x : string) (l : list string) : bool :=
  bool_decide (x ∈ l).

(** [l.remove(x)]: drops the first occurrence; [ValueError] when there is
    none. *)
Fixpoint remove (x : string) (l : list string) : result (list string) :=
  match l with
  | [] => Raise ValueError
  | y :: l' =>
      if decide (y = x) then Ok l'
      else bind (remove x l') (λ r, Ok (y :: r))
  end.

(** The indices of [range(start, stop, step)] for a positive step, at
    most [fuel] of them. *)
Fixpoint range_up (fuel : nat) (i stop step : Z) : list Z :=
  match fuel with
  | O => []
  | S fuel' =>
      if (i <? stop)%Z then i :: range_up fuel' (i + step) stop step else []
  end.

(** The same for a negative step. *)
Fixpoint range_down (fuel : nat) (i stop step : Z) : list Z :=
  match fuel with
  | O => []
  | S fuel' =>
      if (stop <? i)%Z then i :: range_down fuel' (i + step) stop step else []
  end.

(** [list(range(start, stop, step))]: a zero step is refused. A step of
    size at least one reaches [stop] within [|stop - start|] strides,
    which is the fuel given. *)
Definition range (start stop step : Z) : result (list Z) :=
  if (step =? 0)%Z then Raise ValueError
  else if (step <? 0)%Z
       then Ok (range_down (Z.to_nat (start - stop)) start stop step)
       else Ok (range_up (Z.to_nat (stop - start)) start stop step).

(** [l[i:j]] for non-negative [i] and [j]: the bounds are clipped to the
    list, and the slice is empty when [j <= i]. *)
Definition slice {A} (l : list A) (i j : Z) : list A :=
  take (Z.to_nat (j - i)) (drop (Z.to_nat i) l).

(** A spreadsheet row: a [dict] from column names to cells. *)
Abbreviation row := (gmap string pyval).

(** [d.get(key)] *)
Definition get (key : string) (d : row) : pyval :=
  default PNone (d !! key).

End Py.

Import Py.


(** ** Effects: the heap of list objects and the trace of outside calls *)

Module Eff.
Section Eff.
(** [S] and [P] are the stock and price record types of a marketplace. *)
Context {S P : Type}.

(** What a run does to the outside, in order. *)
Inductive event : Type :=
| FetchOfferIds (account token : string)
| DownloadStock
| SubmitStocks (batch : list S) (account token : string)
| SubmitPrices (batch : list P) (account token : string)
| Print (error : option exn) (text : string).

(** The outside of the program: the process environment, the clock and
    the outcome of every remote call, each of which may depend on what
    happened before. [offer_ids_of] is the outcome of the whole paginated
    listing of offer ids, [feed] the outcome of downloading and parsing
    the spreadsheet. *)
Record world : Type := {
  environ : string → option string;
  utcnow : list event → string;
  offer_ids_of : list event → string → string → result (list string);
  feed : list event → result (list row);
  stocks_reply : list event → list S → string → string → result unit;
  prices_reply : list event → list P → string → string → result unit;
}.

(** A reference to a list object. *)
Definition loc := nat.

(** The list objects allocated so far and the trace. Two variables that
    hold the same [loc] are aliases of one list. *)
Record state : Type := {
  heap : list (list string);
  log : list event;
}.

Definition M (A : Type) : Type := state → result A * state.

Global Instance M_ret : MRet M := λ A a st, (Ok a, st).
Global Instance M_bind : MBind M := λ A B k m st,
  match m st with
  | (Ok a, st') => k a st'
  | (Raise e, st') => (Raise e, st')
  end.

(** An expression that may raise, evaluated inside a run. *)
Definition lift {A} (r : result A) : M A := λ st, (r, st).

(** [try: body / except ... as error: handler error]; every class of
    [exn] is an [Exception], so the last clause of the scripts'
    [try] statements leaves nothing uncaught. *)
Definition try_except {A} (body : M A) (handler : exn → M A) : M A := λ st,
  match body st with
  | (Ok a, st') => (Ok a, st')
  | (Raise e, st') => handler e st'
  end.

(** [for x in l: body x] *)
Fixpoint for_each {A} (l : list A) (body : A → M unit) : M unit :=
  match l with
  | [] => mret tt
  | x :: l' => body x ;; for_each l' body
  end.

(** [for x in l: acc = body acc x], for a loop that grows a local list. *)
Fixpoint for_fold {A B} (l : list A) (acc : B) (body : B → A → M B) : M B :=
  match l with
  | [] => mret acc
  | x :: l' => acc' ← body acc x; for_fold l' acc' body
  end.

(** A new list object. *)
Definition alloc (v : list string) : M loc := λ st,
  (Ok (length (heap st)), {| heap := heap st ++ [v]; log := log st |}).

(** The current content of a list object. *)
Definition load (l : loc) : M (list string) := λ st,
  (Ok (heap st !!! l), st).

(** [offer_ids.remove(x)], in place. *)
Definition list_remove (l : loc) (x : string) : M unit := λ st,
  match remove x (heap st !!! l) with
  | Ok v => (Ok tt, {| heap := <[l := v]> (heap st); log := log st |})
  | Raise e => (Raise e, st)
  end.

Definition emit (e : event) : M unit := λ st,
  (Ok tt, {| heap := heap st; log := log st ++ [e] |}).

(** A call to the outside: it is recorded, then its outcome is the one
    the world gives for the trace so far. *)
Definition call {A} (e : event) (outcome : list event → result A) : M A := λ st,
  (outcome (log st), {| heap := heap st; log := log st ++ [e] |}).

Variable w : world.

(** [Env().str(name)] *)
Definition env_str (name : string) : M string :=
  lift (match environ w name with
        | Some v => Ok v
        | None => Raise EnvError
        end).

(** [print(error, text)] or [print(text)] *)
Definition print (error : option exn) (text : string) : M unit :=
  emit (Print error text).

(** [get_offer_ids(account, token)]: the listing, stored in a fresh list.
    The pagination and its HTTP exchanges are not unfolded; a listing that
    ends is described by its outcome, the ids or the exception. *)
Definition get_offer_ids (account token : string) : M loc :=
  ids ← call (FetchOfferIds account token) (λ h, offer_ids_of w h account token);
  alloc ids.

(** [download_stock()]: the download, the archive and the spreadsheet are
    described by their outcome, the rows or the exception. *)
Definition download_stock : M (list row) :=
  call DownloadStock (feed w).

(** [update_stocks(stocks, account, token)]; the reply is not looked at. *)
Definition update_stocks (stocks : list S) (account token : string) : M unit :=
  call (SubmitStocks stocks account token) (λ h, stocks_reply w h stocks account token).

(** [update_price(prices, account, token)] *)
Definition update_price (prices : list P) (account token : string) : M unit :=
  call (SubmitPrices prices account token) (λ h, prices_reply w h prices account token).

(** Calling an [async def] function builds a coroutine object and runs
    nothing of its body; the body runs when the object is awaited. *)
Definition coroutine (A : Type) : Type := M A.
Definition async_call {A} (body : M A) : M (coroutine A) := mret body.
Definition await {A} (c : coroutine A) : M A := c.

End Eff.
Global Arguments event : clear implicits.
Global Arguments world : clear implicits.
Global Arguments state : clear implicits.
Global Arguments M : clear implicits.
End Eff.

Import Eff.

(** ** seller.py *)

Module Seller.

(** A stock record, [{"offer_id": ..., "stock": ...}]. *)
Module Stock.
Record t : Type := { offer_id : string; stock : Z }.
End Stock.

(** A price record. *)
Module Price.
Record t : Type := {
  auto_action_enabled : string;
  currency_code : string;
  offer_id : string;
  old_price : string;
  price : string;
}.
End Price.

Abbreviation M := (Eff.M Stock.t Price.t).
Abbreviation world := (Eff.world Stock.t Price.t).
Abbreviation state := (Eff.state Stock.t Price.t).
Abbreviation event := (Eff.event Stock.t Price.t).

(** [re.sub("[^0-9]", "", price.split(".")[0])] *)
Definition price_conversion (price : string) : string :=
  re_sub_non_digit "" (hd "" (split "." price)).

(** [price_conversion(v)] for a cell [v]: a cell that is no text has no
    [split] method. *)
Definition price_conversion_of (v : pyval) : result string :=
  match v with
  | PStr price => Ok (price_conversion price)
  | _ => Raise AttributeError
  end.

(** [list(divide(lst, n))]: the slices [lst[i: i + n]] for [i] in
    [range(0, len(lst), n)]. *)
Definition divide {A} (lst : list A) (n : Z) : result (list (list A)) :=
  bind (range 0 (Z.of_nat (length lst)) n)
       (λ indices, Ok (map (λ i, slice lst i (i + n)) indices)).

Definition create_stocks (watch_remnants : list row) (offer_ids : loc)
  : M (list Stock.t) :=
  stocks ← for_fold watch_remnants [] (λ stocks watch,
    ids ← load offer_ids;
    if contains (str (get "Код" watch)) ids then
      let count := str (get "Количество" watch) in
      stock ← (if decide (count = ">10") then mret 100
               else if decide (count = "1") then mret 0
               else lift (int (get "Количество" watch)));
      let stocks :=
        stocks ++ [{| Stock.offer_id := str (get "Код" watch);
                      Stock.stock := stock |}] in
      list_remove offer_ids (str (get "Код" watch));;
      mret stocks
    else mret stocks);
  ids ← load offer_ids;
  for_fold ids stocks (λ stocks offer_id,
    mret (stocks ++ [{| Stock.offer_id := offer_id; Stock.stock := 0 |}])).

Definition create_prices (watch_remnants : list row) (offer_ids : loc)
  : M (list Price.t) :=
  for_fold watch_remnants [] (λ prices watch,
    ids ← load offer_ids;
    if contains (str (get "Код" watch)) ids then
      converted ← lift (price_conversion_of (get "Цена" watch));
      let price :=
        {| Price.auto_action_enabled := "UNKNOWN";
           Price.currency_code := "RUB";
           Price.offer_id := str (get "Код" watch);
           Price.old_price := "0";
           Price.price := converted |} in
      mret (prices ++ [price])
    else mret prices).

Section Main.
Variable w : world.

Definition upload_prices (watch_remnants : list row) (client_id seller_token : string)
  : M (coroutine (list Price.t)) :=
  async_call (
    offer_ids ← get_offer_ids w client_id seller_token;
    prices ← create_prices watch_remnants offer_ids;
    batches ← lift (divide prices 1000);
    for_each batches (λ some_price, update_price w some_price client_id seller_token);;
    mret prices).

Definition upload_stocks (watch_remnants : list row) (client_id seller_token : string)
  : M (coroutine (list Stock.t * list Stock.t)) :=
  async_call (
    offer_ids ← get_offer_ids w client_id seller_token;
    stocks ← create_stocks watch_remnants offer_ids;
    batches ← lift (divide stocks 100);
    for_each batches (λ some_stock, update_stocks w some_stock client_id seller_token);;
    let not_empty := filter (λ stock, Stock.stock stock ≠ 0) stocks in
    mret (not_empty, stocks)).

(** The suite of the [try] statement of [main]. *)
Definition main_try (client_id seller_token : string) : M unit :=
  offer_ids ← get_offer_ids w client_id seller_token;
  watch_remnants ← download_stock w;
  stocks ← create_stocks watch_remnants offer_ids;
  stock_batches ← lift (divide stocks 100);
  for_each stock_batches (λ some_stock, update_stocks w some_stock client_id seller_token);;
  prices ← create_prices watch_remnants offer_ids;
  price_batches ← lift (divide prices 900);
  for_each price_batches (λ some_price, update_price w some_price client_id seller_token).

(** The [except] clauses of [main], in their order. *)
Definition main_except (error : exn) : M unit :=
  match error with
  | ReadTimeout => print None "Превышено время ожидания..."
  | ConnectionError => print (Some error) "Ошибка соединения"
  | _ => print (Some error) "ERROR_2"
  end.

Definition main : M unit :=
  seller_token ← env_str w "SELLER_TOKEN";
  client_id ← env_str w "CLIENT_ID";
  try_except (main_try client_id seller_token) main_except.

End Main.

End Seller.

(** ** market.py *)

Module Market.

(** One entry of the ["items"] list of a stock record. *)
Module Item.
Record t : Type := { count : Z; type : string; updatedAt : string }.
End Item.

(** A stock record, [{"sku": ..., "warehouseId": ..., "items": [...]}]. *)
Module Stock.
Record t : Type := { sku : string; warehouseId : string; items : list Item.t }.
End Stock.

(** The ["price"] part of a price record. *)
Module Value.
Record t : Type := { value : Z; currencyId : string }.
End Value.

(** A price record, [{"id": ..., "price": {...}}]. *)
Module Price.
Record t : Type := { id : string; price : Value.t }.
End Price.

Abbreviation M := (Eff.M Stock.t Price.t).
Abbreviation world := (Eff.world Stock.t Price.t).
Abbreviation state := (Eff.state Stock.t Price.t).
Abbreviation event := (Eff.event Stock.t Price.t).

(** [from seller import divide, price_conversion] *)
Definition divide {A} := @Seller.divide A.
Definition price_conversion_of := Seller.price_conversion_of.

Section Market.
Variable w : world.

(** [str(datetime.datetime.utcnow().replace(microsecond=0).isoformat() + "Z")] *)
Definition utcnow_iso : M string := λ st, (Ok (utcnow w (log st) +:+ "Z"), st).

Definition create_stocks (watch_remnants : list row) (offer_ids : loc)
    (warehouse_id : string) : M (list Stock.t) :=
  date ← utcnow_iso;
  stocks ← for_fold watch_remnants [] (λ stocks watch,
    ids ← load offer_ids;
    if contains (str (get "Код" watch)) ids then
      let count := str (get "Количество" watch) in
      stock ← (if decide (count = ">10") then mret 100
               else if decide (count = "1") then mret 0
               else lift (int (get "Количество" watch)));
      let stocks :=
        stocks ++ [{| Stock.sku := str (get "Код" watch);
                      Stock.warehouseId := warehouse_id;
                      Stock.items := [{| Item.count := stock;
                                         Item.type := "FIT";
                                         Item.updatedAt := date |}] |}] in
      list_remove offer_ids (str (get "Код" watch));;
      mret stocks
    else mret stocks);
  ids ← load offer_ids;
  for_fold ids stocks (λ stocks offer_id,
    mret (stocks ++ [{| Stock.sku := offer_id;
                        Stock.warehouseId := warehouse_id;
                        Stock.items := [{| Item.count := 0;
                                           Item.type := "FIT";
                                           Item.updatedAt := date |}] |}])).

Definition create_prices (watch_remnants : list row) (offer_ids : loc)
  : M (list Price.t) :=
  for_fold watch_remnants [] (λ prices watch,
    ids ← load offer_ids;
    if contains (str (get "Код" watch)) ids then
      converted ← lift (price_conversion_of (get "Цена" watch));
      value ← lift (int (PStr converted));
      let price :=
        {| Price.id := str (get "Код" watch);
           Price.price := {| Value.value := value;
                             Value.currencyId := "RUR" |} |} in
      mret (prices ++ [price])
    else mret prices).

Definition upload_prices (watch_remnants : list row) (campaign_id market_token : string)
  : M (coroutine (list Price.t)) :=
  async_call (
    offer_ids ← get_offer_ids w campaign_id market_token;
    prices ← create_prices watch_remnants offer_ids;
    batches ← lift (divide prices 500);
    for_each batches (λ some_prices, update_price w some_prices campaign_id market_token);;
    mret prices).

Definition upload_stocks (watch_remnants : list row)
    (campaign_id market_token warehouse_id : string)
  : M (coroutine (list Stock.t * list Stock.t)) :=
  async_call (
    offer_ids ← get_offer_ids w campaign_id market_token;
    stocks ← create_stocks watch_remnants offer_ids warehouse_id;
    batches ← lift (divide stocks 2000);
    for_each batches (λ some_stock, update_stocks w some_stock campaign_id market_token);;
    let not_empty :=
      filter (λ stock, (Item.count <$> Stock.items stock !! 0%nat) ≠ Some 0) stocks in
    mret (not_empty, stocks)).

(** The suite of the [try] statement of [main]. Each coroutine that
    [upload_prices] returns is dropped: the statement neither awaits it
    nor hands it to an event loop. *)
Definition main_try (watch_remnants : list row)
    (market_token campaign_fbs_id campaign_dbs_id
     warehouse_fbs_id warehouse_dbs_id : string) : M unit :=
  offer_ids ← get_offer_ids w campaign_fbs_id market_token;
  stocks ← create_stocks watch_remnants offer_ids warehouse_fbs_id;
  batches ← lift (divide stocks 2000);
  for_each batches (λ some_stock, update_stocks w some_stock campaign_fbs_id market_token);;
  _ ← upload_prices watch_remnants campaign_fbs_id market_token;

  offer_ids ← get_offer_ids w campaign_dbs_id market_token;
  stocks ← create_stocks watch_remnants offer_ids warehouse_dbs_id;
  batches ← lift (divide stocks 2000);
  for_each batches (λ some_stock, update_stocks w some_stock campaign_dbs_id market_token);;
  _ ← upload_prices watch_remnants campaign_dbs_id market_token;
  mret tt.

(** The [except] clauses of [main], in their order. *)
Definition main_except (error : exn) : M unit :=
  match error with
  | ReadTimeout => print None "Превышено время ожидания..."
  | ConnectionError => print (Some error) "Ошибка соединения"
  | _ => print (Some error) "ERROR_2"
  end.

Definition main : M unit :=
  market_token ← env_str w "MARKET_TOKEN";
  campaign_fbs_id ← env_str w "FBS_ID";
  campaign_dbs_id ← env_str w "DBS_ID";
  warehouse_fbs_id ← env_str w "WAREHOUSE_FBS_ID";
  warehouse_dbs_id ← env_str w "WAREHOUSE_DBS_ID";
  watch_remnants ← download_stock w;
  try_except
    (main_try watch_remnants market_token campaign_fbs_id campaign_dbs_id
              warehouse_fbs_id warehouse_dbs_id)
    main_except.

End Market.

End Market.

(** ** The specification's vocabulary *)

Module Spec.

(** The code of an inventory row, as text. *)
Definition code (watch : row) : string := str (get "Код" watch).

(** The prefix of a text up to its first ['.']. *)
Fixpoint truncate_at_dot (s : string) : string :=
  match s with
  | EmptyString => EmptyString
  | String c s' => if Ascii.eqb c "." then EmptyString else String c (truncate_at_dot s')
  end.

(** A text without its characters that are no ASCII digit. *)
Fixpoint digits_only (s : string) : string :=
  match s with
  | EmptyString => EmptyString
  | String c s' => if is_digit c then String c (digits_only s') else digits_only s'
  end.

Fixpoint all_digits (s : string) : bool :=
  match s with
  | EmptyString => true
  | String c s' => is_digit c && all_digits s'
  end.

Fixpoint has_digit (s : string) : bool :=
  match s with
  | EmptyString => false
  | String c s' => is_digit c || has_digit s'
  end.

(** The count of a quantity cell: [">10"] stands for 100, ["1"] for 0,
    anything else is parsed as an integer. *)
Definition count_of (quantity : pyval) : result Z :=
  if decide (str quantity = ">10") then Ok 100
  else if decide (str quantity = "1") then Ok 0
  else int quantity.

(** The quantity cell of a row resolves to the count [z]. *)
Definition resolves_to (watch : row) (z : Z) : Prop :=
  count_of (get "Количество" watch) = Ok z.

(** Every row carries a quantity that resolves to a count: a sentinel, or
    a value that [int] converts. *)
Definition quantities_ok (rows : list row) : Prop :=
  Forall (λ watch, ∃ z, resolves_to watch z) rows.

(** The rows that are the first of their code, among those whose code is
    an offer id; [seen] holds the codes of the rows before. *)
Fixpoint first_matches (seen : list string) (rows : list row) (ids : list string)
  : list row :=
  match rows with
  | [] => []
  | watch :: rows' =>
      if bool_decide (code watch ∈ ids) && negb (bool_decide (code watch ∈ seen))
      then watch :: first_matches (code watch :: seen) rows' ids
      else first_matches (code watch :: seen) rows' ids
  end.

(** The first row of a given code, if any. *)
Definition first_row (id : string) (rows : list row) : option row :=
  find (λ watch, bool_decide (code watch = id)) rows.

(** The offer ids that are the code of no row, in their order. *)
Definition unmatched (rows : list row) (ids : list string) : list string :=
  filter (λ id, id ∉ map code rows) ids.

(** The count [z] is the one the quantity cell stands for. *)
Definition quantity_count (quantity : pyval) (z : Z) : Prop :=
  (str quantity = ">10" ∧ z = 100)
  ∨ (str quantity = "1" ∧ z = 0)
  ∨ (str quantity ≠ ">10" ∧ str quantity ≠ "1" ∧ int quantity = Ok z).

(** [records] holds exactly one (offer id, count) pair for each of [ids],
    its count the one of the first row of that code, or 0 without one. *)
Definition one_record_per_offer (rows : list row) (ids : list string)
    (records : list (string * Z)) : Prop :=
  length records = length ids
  ∧ (∀ p, p ∈ records → p.1 ∈ ids)
  ∧ NoDup (map fst records)
  ∧ (∀ id, id ∈ ids →
       ∃ z, (id, z) ∈ records
            ∧ match first_row id rows with
              | Some watch => resolves_to watch z
              | None => z = 0
              end).

(** [records] is a matched part, whose counts come from a row of the same
    code through the quantity mapping, followed by the records of [rest],
    all of count 0; an id that is the code of no row is in [rest]. *)
Definition counts_resolved (rows : list row) (ids : list string)
    (matched : list (string * Z)) (rest : list string) : Prop :=
  Forall (λ p, ∃ watch, watch ∈ rows ∧ code watch = p.1
                        ∧ quantity_count (get "Количество" watch) p.2) matched
  ∧ (∀ id, id ∈ ids → (∀ watch, watch ∈ rows → code watch ≠ id) →
           id ∈ rest ∧ id ∉ map fst matched).

(** [matched] follows, one to one and in order, the rows that are the first
    of their code among those whose code is in [ids]. *)
Definition follows_rows (rows : list row) (ids : list string)
    (matched : list (string * Z)) : Prop :=
  Forall2 (λ watch p, p.1 = code watch ∧ resolves_to watch p.2)
          (first_matches [] rows ids) matched.

(** The price cell of a row is a text. *)
Definition price_is_text (watch : row) : Prop :=
  ∃ s, get "Цена" watch = PStr s.

(** The price cell of a row is a text with a digit before its first ['.']
    and no more digits there than [int] takes. *)
Definition price_converts (watch : row) : Prop :=
  ∃ s, get "Цена" watch = PStr s
       ∧ has_digit (truncate_at_dot s) = true
       ∧ (digit_count (truncate_at_dot s) ≤ max_str_digits)%Z.

(** The price cell of a row is a text with more digits before its first
    ['.'] than [int] takes. *)
Definition price_exceeds_limit (watch : row) : Prop :=
  ∃ s, get "Цена" watch = PStr s
       ∧ (max_str_digits < digit_count (truncate_at_dot s))%Z.

(** The price cell of a row is a text without a digit before its first ['.']. *)
Definition price_has_no_digit (watch : row) : Prop :=
  ∃ s, get "Цена" watch = PStr s ∧ has_digit (truncate_at_dot s) = false.

(** [p] is the price record of seller.py for the row. *)
Definition seller_priced (watch : row) (p : Seller.Price.t) : Prop :=
  ∃ s, get "Цена" watch = PStr s
       ∧ p = {| Seller.Price.auto_action_enabled := "UNKNOWN";
                Seller.Price.currency_code := "RUB";
                Seller.Price.offer_id := code watch;
                Seller.Price.old_price := "0";
                Seller.Price.price := Seller.price_conversion s |}.

(** [p] is the price record of market.py for the row. *)
Definition market_priced (watch : row) (p : Market.Price.t) : Prop :=
  ∃ s z, get "Цена" watch = PStr s
         ∧ int_of_str (Seller.price_conversion s) = Some z
         ∧ p = {| Market.Price.id := code watch;
                  Market.Price.price := {| Market.Value.value := z;
                                           Market.Value.currencyId := "RUR" |} |}.

(** The rows whose code is an offer id, in their order. *)
Definition matching (rows : list row) (ids : list string) : list row :=
  filter (λ watch, code watch ∈ ids) rows.

(** The events that submit a batch of prices. *)
Definition submits_prices {S P} (e : event S P) : Prop :=
  match e with
  | SubmitPrices _ _ _ => True
  | _ => False
  end.

(** A world whose listings of offer ids never repeat an id. *)
Definition distinct_offer_ids {S P} (w : Eff.world S P) : Prop :=
  ∀ trace account token ids,
    offer_ids_of w trace account token = Ok ids → NoDup ids.

(** A computation that adds no submission of prices to the trace. *)
Definition submits_no_prices {S P A} (m : Eff.M S P A) : Prop :=
  ∀ st, ∃ events, log (m st).2 = log st ++ events
                  ∧ Forall (λ e, ¬ submits_prices e) events.

(** [st'] is the state a [try] statement whose suite ended as [r] is left
    in, when each [except] clause prints one message: the state of the
    suite, with one message printed if the suite raised. *)
Definition trapped {S P} (r : result unit * Eff.state S P) (st' : Eff.state S P)
  : Prop :=
  match r with
  | (Ok _, st1) => st' = st1
  | (Raise e, st1) =>
      ∃ error text, st' = {| heap := heap st1; log := log st1 ++ [Print error text] |}
  end.

End Spec.

(** ** The matching loop of the stock builders on plain lists *)

Module Loop.
Import Spec.

(** The first loop of [create_stocks], run on the content [ids] of the
    working list: the matched codes with their counts, in order, or the
    exception that stops the loop; and what the working list holds then. *)
Fixpoint scan (rows : list row) (ids : list string)
  : result (list (string * Z)) * list string :=
  match rows with
  | [] => (Ok [], ids)
  | watch :: rows' =>
      if contains (code watch) ids then
        match count_of (get "Количество" watch) with
        | Ok stock =>
            match remove (code watch) ids with
            | Ok ids' =>
                let '(found, rest) := scan rows' ids' in
                (bind found (λ ms, Ok ((code watch, stock) :: ms)), rest)
            | Raise e => (Raise e, ids)
            end
        | Raise e => (Raise e, ids)
        end
      else scan rows' ids
  end.

(** The offer id and the count of every record [create_stocks] returns:
    the matched ones, then one of count 0 for each id left in the list. *)
Definition outcome (rows : list row) (ids : list string)
  : result (list (string * Z)) :=
  bind (scan rows ids).1
       (λ ms, Ok (ms ++ map (λ offer_id, (offer_id, 0)) (scan rows ids).2)).

Section Step.
Context {S P R : Type} (mk : string → Z → R).

(** The body of that loop, for a stock record built by [mk]. *)
Definition stock_step (offer_ids : loc) (stocks : list R) (watch : row)
  : Eff.M S P (list R) :=
  ids ← load offer_ids;
  if contains (str (get "Код" watch)) ids then
    let count := str (get "Количество" watch) in
    stock ← (if decide (count = ">10") then mret 100
             else if decide (count = "1") then mret 0
             else lift (int (get "Количество" watch)));
    let stocks := stocks ++ [mk (str (get "Код" watch)) stock] in
    list_remove offer_ids (str (get "Код" watch));;
    mret stocks
  else mret stocks.

(** Both loops of [create_stocks]. *)
Definition stock_loops (watch_remnants : list row) (offer_ids : loc)
  : Eff.M S P (list R) :=
  stocks ← for_fold watch_remnants [] (stock_step offer_ids);
  ids ← load offer_ids;
  for_fold ids stocks (λ stocks offer_id, mret (stocks ++ [mk offer_id 0])).

End Step.

(** The slices that [divide lst k] takes at the indices [j], [j + k], ...
    below the length of [lst], at most [fuel] of them. *)
Definition chunks_from {A} (lst : list A) (k fuel j : nat) : list (list A) :=
  map (λ i, slice lst i (i + Z.of_nat k))
      (range_up fuel (Z.of_nat j) (Z.of_nat (length lst)) (Z.of_nat k)).

(** The results of [f] on the rows, up to the first exception. *)
Fixpoint collect {R} (f : row → result R) (rows : list row) : result (list R) :=
  match rows with
  | [] => Ok []
  | watch :: rows' =>
      bind (f watch) (λ p, bind (collect f rows') (λ ps, Ok (p :: ps)))
  end.

(** The price record seller.py builds from a row. *)
Definition seller_price (watch : row) : result Seller.Price.t :=
  bind (Seller.price_conversion_of (get "Цена" watch)) (λ converted,
    Ok {| Seller.Price.auto_action_enabled := "UNKNOWN";
          Seller.Price.currency_code := "RUB";
          Seller.Price.offer_id := str (get "Код" watch);
          Seller.Price.old_price := "0";
          Seller.Price.price := converted |}).

(** The price record market.py builds from a row. *)
Definition market_price (watch : row) : result Market.Price.t :=
  bind (Market.price_conversion_of (get "Цена" watch)) (λ converted,
    bind (int (PStr converted)) (λ value,
      Ok {| Market.Price.id := str (get "Код" watch);
            Market.Price.price := {| Market.Value.value := value;
                                     Market.Value.currencyId := "RUR" |} |})).

(** The state in which the list object [l] holds [v]. *)
Definition set_list {S P} (l : loc) (v : list string) (st : Eff.state S P)
  : Eff.state S P :=
  {| heap := <[l := v]> (heap st); log := log st |}.

(** The stock records of the two marketplaces. *)
Definition seller_stock (offer_id : string) (stock : Z) : Seller.Stock.t :=
  {| Seller.Stock.offer_id := offer_id; Seller.Stock.stock := stock |}.

Definition market_stock (warehouse_id date : string) (sku : string) (count : Z)
  : Market.Stock.t :=
  {| Market.Stock.sku := sku;
     Market.Stock.warehouseId := warehouse_id;
     Market.Stock.items := [{| Market.Item.count := count;
                               Market.Item.type := "FIT";
                               Market.Item.updatedAt := date |}] |}.

End Loop.

(** ** Sample inputs *)

Module Sample.

Definition watch (code quantity price : string) : row :=
  {[ "Код" := PStr code; "Количество" := PStr quantity; "Цена" := PStr price ]}.

(** The scenario of the stock builder. *)
Definition rows : list row := [watch "1" "5" "1000.00"; watch "2" ">10" "2000.00"].
Definition ids : list string := ["1"; "2"; "3"].

(** One row for each case of the quantity mapping. *)
Definition quantity_rows : list row :=
  [watch "a" ">10" "10"; watch "b" "1" "20"; watch "c" "7" "30"].
Definition quantity_ids : list string := ["a"; "b"; "c"; "d"].

(** A matched row whose price has no digit before the first ['.']. *)
Definition no_digit_rows : list row := [watch "1" "5" "руб. 10"].

(** A state whose only list object holds [ids]. *)
Definition state_of {S P} (ids : list string) : Eff.state S P :=
  {| heap := [ids]; log := [] |}.

(** The state of a fresh process. *)
Definition start {S P} : Eff.state S P := {| heap := []; log := [] |}.

(** A world without environment variables. *)
Definition world_without_env {S P} : Eff.world S P :=
  {| environ := λ _, None;
     utcnow := λ _, "2024-01-01T00:00:00";
     offer_ids_of := λ _ _ _, Ok [];
     feed := λ _, Ok [];
     stocks_reply := λ _ _ _ _, Ok tt;
     prices_reply := λ _ _ _ _, Ok tt |}.

(** A world in which the download of the feed cannot connect. *)
Definition world_without_feed {S P} : Eff.world S P :=
  {| environ := λ _, Some "x";
     utcnow := λ _, "2024-01-01T00:00:00";
     offer_ids_of := λ _ _ _, Ok [];
     feed := λ _, Raise ConnectionError;
     stocks_reply := λ _ _ _ _, Ok tt;
     prices_reply := λ _ _ _ _, Ok tt |}.

(** A world in which every submission of stocks times out. *)
Definition world_timing_out {S P} (rows : list row) (ids : list string) : Eff.world S P :=
  {| environ := λ _, Some "x";
     utcnow := λ _, "2024-01-01T00:00:00";
     offer_ids_of := λ _ _ _, Ok ids;
     feed := λ _, Ok rows;
     stocks_reply := λ _ _ _ _, Raise ReadTimeout;
     prices_reply := λ _ _ _ _, Ok tt |}.

(** A world in which every variable is set and every call succeeds. *)
Definition world_of {S P} (rows : list row) (ids : list string) : Eff.world S P :=
  {| environ := λ _, Some "x";
     utcnow := λ _, "2024-01-01T00:00:00";
     offer_ids_of := λ _ _ _, Ok ids;
     feed := λ _, Ok rows;
     stocks_reply := λ _ _ _ _, Ok tt;
     prices_reply := λ _ _ _ _, Ok tt |}.

End Sample.

(** ** The bodies of the replies of the marketplaces *)

Module Json.

(** A value decoded from a JSON body; a dict is the list of its entries,
    each key once. Booleans and floating-point numbers are outside the
    model. *)
#[local] Set Warnings "-register-all".
Inductive json : Type :=
| JNull
| JStr (s : string)
| JInt (z : Z)
| JList (l : list json)
| JDict (d : list (string * json)).

(** The value under [key] among the entries of a dict, [None] without one. *)
Fixpoint entry (key : string) (d : list (string * json)) : json :=
  match d with
  | [] => JNull
  | (k, v) :: d' => if decide (k = key) then v else entry key d'
  end.

(** [v.get(key)]: only a dict has the method. *)
Definition get (key : string) (v : json) : result json :=
  match v with
  | JDict d => Ok (entry key d)
  | _ => Raise AttributeError
  end.

Fixpoint characters (s : string) : list json :=
  match s with
  | EmptyString => []
  | String c s' => JStr (String c EmptyString) :: characters s'
  end.

(** What [l.extend(v)] appends to [l]: the elements of a list, the keys of
    a dict, the characters of an ASCII text; [None] and an integer cannot
    be iterated. *)
Definition elements (v : json) : result (list json) :=
  match v with
  | JList l => Ok l
  | JDict d => Ok (map (λ kv, JStr kv.1) d)
  | JStr s => Ok (characters s)
  | JNull | JInt _ => Raise TypeError
  end.

(** The truth value of [v], as [not v] tests it. *)
Definition truthy (v : json) : bool :=
  match v with
  | JNull => false
  | JStr s => negb (bool_decide (s = ""))
  | JInt z => negb (z =? 0)%Z
  | JList l => negb (bool_decide (l = []))
  | JDict d => negb (bool_decide (d = []))
  end.

(** [v == n] for an integer [n]. *)
Definition eq_int (v : json) (n : Z) : bool :=
  match v with
  | JInt z => (z =? n)%Z
  | _ => false
  end.

(** [[f(x) for x in l]], up to the first exception. *)
Fixpoint each (f : json → result json) (l : list json) : result (list json) :=
  match l with
  | [] => Ok []
  | x :: l' => bind (f x) (λ y, bind (each f l') (λ ys, Ok (y :: ys)))
  end.

End Json.

(** ** The listing of the offer ids, seller.py *)

Module SellerListing.
Import Json.

Section Listing.
(** The body of the reply to the request number [k] (counted from 0) for
    the products after [last_id], or the exception of the request or of
    [raise_for_status]. *)
Variable post : nat → json → string → string → result json.

(** A run is followed through the cursors it has asked for so far. *)
Definition get_product_list (last_id : json) (client_id seller_token : string)
    (asked : list json) : result json * list json :=
  (bind (post (length asked) last_id client_id seller_token)
        (λ response_object, get "result" response_object),
   asked ++ [last_id]).

(** One turn of the [while True] loop, after the request: the longer
    [product_list], [total] and the next [last_id]. *)
Definition turn (some_prod : json) (product_list : list json)
  : result (list json * json * json) :=
  bind (get "items" some_prod) (λ items,
  bind (elements items) (λ more,
  bind (get "total" some_prod) (λ total,
  bind (get "last_id" some_prod) (λ last_id,
    Ok (product_list ++ more, total, last_id))))).

(** The [while True] loop, for at most [fuel] requests: [None] when it has
    not ended by then. *)
Fixpoint listing (fuel : nat) (client_id seller_token : string)
    (last_id : json) (product_list : list json) (asked : list json)
  : option (result (list json)) * list json :=
  match fuel with
  | O => (None, asked)
  | S fuel' =>
      match get_product_list last_id client_id seller_token asked with
      | (Raise e, asked') => (Some (Raise e), asked')
      | (Ok some_prod, asked') =>
          match turn some_prod product_list with
          | Raise e => (Some (Raise e), asked')
          | Ok (product_list', total, last_id') =>
              if eq_int total (Z.of_nat (length product_list'))
              then (Some (Ok product_list'), asked')
              else listing fuel' client_id seller_token last_id' product_list' asked'
          end
      end
  end.

Definition get_offer_ids (fuel : nat) (client_id seller_token : string)
    (asked : list json) : option (result (list json)) * list json :=
  match listing fuel client_id seller_token (JStr "") [] asked with
  | (Some (Ok product_list), asked') =>
      (Some (each (get "offer_id") product_list), asked')
  | (Some (Raise e), asked') => (Some (Raise e), asked')
  | (None, asked') => (None, asked')
  end.

(** The reply body [response] carries the page [items], [total], [last_id]. *)
Definition page_of (response : json) (items : list json) (total last_id : json) : Prop :=
  ∃ some_prod, get "result" response = Ok some_prod
    ∧ get "items" some_prod = Ok (JList items)
    ∧ get "total" some_prod = Ok total
    ∧ get "last_id" some_prod = Ok last_id.

(** From request number [k] on, asked with [cursor] when [count] products
    are known, the service serves the [pages], each with its items and its
    cursor to the next, and reports [total] products in each reply; the
    count reaches [total] with the last page and not before. *)
Fixpoint serves (client_id seller_token : string) (total : Z)
    (k : nat) (cursor : json) (count : Z) (pages : list (list json * json)) : Prop :=
  match pages with
  | [] => False
  | (items, last_id) :: pages' =>
      (∃ response, post k cursor client_id seller_token = Ok response
                   ∧ page_of response items (JInt total) last_id)
      ∧ match pages' with
        | [] => count + Z.of_nat (length items) = total
        | _ => count + Z.of_nat (length items) ≠ total
               ∧ serves client_id seller_token total (S k) last_id
                        (count + Z.of_nat (length items)) pages'
        end
  end.

(** The cursors asked for when the service serves [pages]: the empty text,
    then the cursor of each page but the last. *)
Definition cursors (first : json) (pages : list (list json * json)) : list json :=
  first :: map snd (removelast pages).

End Listing.
End SellerListing.

(** ** The listing of the offer ids, market.py *)

Module MarketListing.
Import Json.

Section Listing.
(** The body of the reply to the request number [k] (counted from 0) for
    the page of token [page], or the exception of the request or of
    [raise_for_status]. *)
Variable fetch : nat → json → string → string → result json.

Definition get_product_list (page : json) (campaign_id access_token : string)
    (asked : list json) : result json * list json :=
  (bind (fetch (length asked) page campaign_id access_token)
        (λ response_object, get "result" response_object),
   asked ++ [page]).

(** One turn of the [while True] loop, after the request: the longer
    [product_list] and the next [page]. *)
Definition turn (some_prod : json) (product_list : list json)
  : result (list json * json) :=
  bind (get "offerMappingEntries" some_prod) (λ entries,
  bind (elements entries) (λ more,
  bind (get "paging" some_prod) (λ paging,
  bind (get "nextPageToken" paging) (λ page,
    Ok (product_list ++ more, page))))).

(** The [while True] loop, for at most [fuel] requests: [None] when it has
    not ended by then. *)
Fixpoint listing (fuel : nat) (campaign_id market_token : string)
    (page : json) (product_list : list json) (asked : list json)
  : option (result (list json)) * list json :=
  match fuel with
  | O => (None, asked)
  | S fuel' =>
      match get_product_list page campaign_id market_token asked with
      | (Raise e, asked') => (Some (Raise e), asked')
      | (Ok some_prod, asked') =>
          match turn some_prod product_list with
          | Raise e => (Some (Raise e), asked')
          | Ok (product_list', page') =>
              if negb (truthy page')
              then (Some (Ok product_list'), asked')
              else listing fuel' campaign_id market_token page' product_list' asked'
          end
      end
  end.

(** [product.get("offer").get("shopSku")] *)
Definition shop_sku (product : json) : result json :=
  bind (get "offer" product) (get "shopSku").

Definition get_offer_ids (fuel : nat) (campaign_id market_token : string)
    (asked : list json) : option (result (list json)) * list json :=
  match listing fuel campaign_id market_token (JStr "") [] asked with
  | (Some (Ok product_list), asked') => (Some (each shop_sku product_list), asked')
  | (Some (Raise e), asked') => (Some (Raise e), asked')
  | (None, asked') => (None, asked')
  end.

(** The reply body [response] carries the page [entries] and the token
    [next] of the page after it. *)
Definition page_of (response : json) (entries : list json) (next : json) : Prop :=
  ∃ some_prod paging, get "result" response = Ok some_prod
    ∧ get "offerMappingEntries" some_prod = Ok (JList entries)
    ∧ get "paging" some_prod = Ok paging
    ∧ get "nextPageToken" paging = Ok next.

(** From request number [k] on, asked with the token [page], the service
    serves the [pages], each with its entries and the token of the next;
    the last page, and no page before it, has a token that is missing or
    empty. *)
Fixpoint serves (campaign_id market_token : string)
    (k : nat) (page : json) (pages : list (list json * json)) : Prop :=
  match pages with
  | [] => False
  | (entries, next) :: pages' =>
      (∃ response, fetch k page campaign_id market_token = Ok response
                   ∧ page_of response entries next)
      ∧ match pages' with
        | [] => truthy next = false
        | _ => truthy next = true
               ∧ serves campaign_id market_token (S k) next pages'
        end
  end.

Definition cursors (first : json) (pages : list (list json * json)) : list json :=
  first :: map snd (removelast pages).

End Listing.
End MarketListing.

(** ** Sample services *)

Module ListingSample.
Import Json.

Definition product (offer_id : string) : json := JDict [("offer_id", JStr offer_id)].

(** Two pages of three products, found by their cursors. *)
Definition seller_pages : list (list json * json) :=
  [ ([product "a"; product "b"], JStr "c1"); ([product "c"], JStr "") ].

Definition seller_reply (items : list json) (last_id : json) : json :=
  JDict [("result", JDict [("items", JList items); ("total", JInt 3);
                           ("last_id", last_id)])].

Definition seller_service (k : nat) (last_id : json) (client_id seller_token : string)
  : result json :=
  match last_id with
  | JStr "" => Ok (seller_reply [product "a"; product "b"] (JStr "c1"))
  | JStr "c1" => Ok (seller_reply [product "c"] (JStr ""))
  | _ => Raise HTTPError
  end.

(** A service whose replies carry no total. *)
Definition seller_service_without_total (k : nat) (last_id : json)
    (client_id seller_token : string) : result json :=
  Ok (JDict [("result", JDict [("items", JList [product "a"]);
                               ("last_id", JStr "c1")])]).

Definition entry_of (shop_sku : string) : json :=
  JDict [("offer", JDict [("shopSku", JStr shop_sku)])].

(** Two pages of three entries; the second has no token of a next page. *)
Definition market_pages : list (list json * json) :=
  [ ([entry_of "a"; entry_of "b"], JStr "t1"); ([entry_of "c"], JNull) ].

Definition market_service (k : nat) (page : json) (campaign_id access_token : string)
  : result json :=
  match page with
  | JStr "" =>
      Ok (JDict [("result",
                  JDict [("offerMappingEntries", JList [entry_of "a"; entry_of "b"]);
                         ("paging", JDict [("nextPageToken", JStr "t1")])])])
  | JStr "t1" =>
      Ok (JDict [("result",
                  JDict [("offerMappingEntries", JList [entry_of "c"]);
                         ("paging", JDict [])])])
  | _ => Raise HTTPError
  end.

(** A service that gives every page the token of a next one. *)
Definition market_service_without_end (k : nat) (page : json)
    (campaign_id access_token : string) : result json :=
  Ok (JDict [("result",
              JDict [("offerMappingEntries", JList [entry_of "a"]);
                     ("paging", JDict [("nextPageToken", JStr "t1")])])]).

End ListingSample.

(** ** Vocabulary of the further properties *)

Module Further.

(** A computation that adds to the trace only events that satisfy [Q]. *)
Definition emits_only {S P A} (Q : event S P → Prop) (m : Eff.M S P A) : Prop :=
  ∀ st, ∃ events, log (m st).2 = log st ++ events ∧ Forall Q events.

(** A submission holds at least one record and at most [ns] stock records
    or [np] price records. *)
Definition batch_within {S P} (ns np : nat) (e : event S P) : Prop :=
  match e with
  | SubmitStocks batch _ _ => (1 ≤ length batch ≤ ns)%nat
  | SubmitPrices batch _ _ => (1 ≤ length batch ≤ np)%nat
  | _ => True
  end.

(** A submission of stocks holds at least one and at most [ns] records. *)
Definition stock_batch_within {S P} (ns : nat) (e : event S P) : Prop :=
  match e with
  | SubmitStocks batch _ _ => (1 ≤ length batch ≤ ns)%nat
  | _ => True
  end.

(** The count of a stock record of market.py, the one of its first item. *)
Definition market_count (stock : Market.Stock.t) : option Z :=
  Market.Item.count <$> Market.Stock.items stock !! 0%nat.

(** A world in which the listing of the offer ids is refused. *)
Definition world_listing_down {S P} : Eff.world S P :=
  {| environ := λ _, Some "x";
     utcnow := λ _, "2024-01-01T00:00:00";
     offer_ids_of := λ _ _ _, Raise HTTPError;
     feed := λ _, Ok Sample.rows;
     stocks_reply := λ _ _ _ _, Ok tt;
     prices_reply := λ _ _ _ _, Ok tt |}.

(** From [st] to [st'] nothing has changed but the list object [l], which
    has only lost elements: the trace and the other list objects are the
    same, and what [l] holds is a sublist of what it held. *)
Definition only_shrinks {S P} (l : loc) (st st' : Eff.state S P) : Prop :=
  log st' = log st
  ∧ length (heap st') = length (heap st)
  ∧ (∀ l', l' ≠ l → heap st' !! l' = heap st !! l')
  ∧ heap st' !!! l `sublist_of` heap st !!! l.

End Further.

(** * Properties *)

Import Spec.

(** ** Price normaliser *)

Lemma split_nonempty sep s : split sep s ≠ [].
Proof. destruct s as [|c s]; simpl; [done|]. destruct (Ascii.eqb c sep); [done|]. by destruct (split sep s). Qed.

Lemma hd_split_dot s : hd "" (split "." s) = truncate_at_dot s.
Proof.
  induction s as [|c s IH]; simpl; [done|].
  destruct (Ascii.eqb c "."); [done|].
  destruct (split "." s) as [|p ps] eqn:E.
  - by destruct (split_nonempty "." s).
  - simpl in *. by rewrite IH.
Qed.

Lemma re_sub_non_digit_empty s : re_sub_non_digit "" s = digits_only s.
Proof. induction s as [|c s IH]; simpl; [done|]. rewrite IH. by destruct (is_digit c). Qed.

Lemma digits_only_all_digits s : all_digits (digits_only s) = true.
Proof.
  induction s as [|c s IH]; simpl; [done|].
  destruct (is_digit c) eqn:E; simpl; [by rewrite E|done].
Qed.

Lemma digits_only_no_digit s : has_digit s = false → digits_only s = "".
Proof.
  induction s as [|c s IH]; simpl; [done|].
  destruct (is_digit c); simpl; [done|auto].
Qed.

Lemma price_conversion_digits s :
  Seller.price_conversion s = digits_only (truncate_at_dot s)
  ∧ all_digits (Seller.price_conversion s) = true.
Proof.
  unfold Seller.price_conversion.
  rewrite hd_split_dot, re_sub_non_digit_empty.
  split; [done|apply digits_only_all_digits].
Qed.

(** C5: [price_conversion s] is the digits of the prefix of [s] before its
    first ['.'], holds digits only, and is empty when that prefix has no
    digit. *)
Theorem price_conversion_digits_of_prefix (s : string) :
  Seller.price_conversion s = digits_only (truncate_at_dot s)
  ∧ all_digits (Seller.price_conversion s) = true
  ∧ (has_digit (truncate_at_dot s) = false → Seller.price_conversion s = "").
Proof.
  destruct (price_conversion_digits s) as [Heq Hall].
  split_and!; [done..|]. rewrite Heq. apply digits_only_no_digit.
Qed.

Example price_conversion_scenario :
  Seller.price_conversion "1'234.50 руб." = "1234"
  ∧ Seller.price_conversion "5'990.00 руб." = "5990"
  ∧ Seller.price_conversion "руб. 12" = "".
Proof. by vm_compute. Qed.

(** ** Batcher *)

Section Divide.
Context {A : Type} (lst : list A) (k : nat).
Hypothesis k_pos : (0 < k)%nat.

Local Abbreviation chunks_from := (Loop.chunks_from lst k).

Lemma chunks_from_step fuel j :
  chunks_from (S fuel) j =
    if decide (j < length lst)%nat
    then take k (drop j lst) :: chunks_from fuel (j + k)
    else [].
Proof.
  unfold chunks_from; simpl.
  destruct (Z.ltb_spec (Z.of_nat j) (Z.of_nat (length lst))); case_decide; try lia; [|done].
  simpl. f_equal.
  - unfold slice. f_equal; [lia|]. f_equal. lia.
  - do 2 f_equal. lia.
Qed.

Lemma concat_chunks_from fuel j :
  (length lst - j ≤ fuel)%nat → concat (chunks_from fuel j) = drop j lst.
Proof.
  revert j. induction fuel as [|fuel IH]; intros j Hfuel.
  - rewrite drop_ge by lia. done.
  - rewrite chunks_from_step. case_decide.
    + simpl. rewrite IH by lia.
      rewrite <- drop_drop. apply take_drop.
    + by rewrite drop_ge by lia.
Qed.

Lemma chunks_from_nonempty fuel j : Forall (λ c, c ≠ []) (chunks_from fuel j).
Proof.
  revert j. induction fuel as [|fuel IH]; intros j; [constructor|].
  rewrite chunks_from_step. case_decide; [|constructor].
  constructor; [|apply IH].
  intros E. apply (f_equal length) in E. rewrite length_take, length_drop in E.
  simpl in E. lia.
Qed.

Lemma chunks_from_full fuel j i c :
  chunks_from fuel j !! i = Some c → (S i < length (chunks_from fuel j))%nat →
  length c = k.
Proof.
  revert j i. induction fuel as [|fuel IH]; intros j i; [done|].
  rewrite chunks_from_step. case_decide; [|done].
  destruct i as [|i]; simpl.
  - intros [= <-] Hlen. rewrite length_take, length_drop.
    destruct fuel as [|fuel]; [simpl in Hlen; lia|].
    rewrite chunks_from_step in Hlen. case_decide; [lia|simpl in Hlen; lia].
  - intros Hc Hlen. apply (IH (j + k)%nat i); [done|lia].
Qed.

End Divide.

Lemma last_Forall {A} (Q : A → Prop) (l : list A) x :
  Forall Q l → last l = Some x → Q x.
Proof.
  intros HQ Hlast. apply last_Some in Hlast as [l' ->].
  apply Forall_app in HQ as [_ HQ]. by inversion HQ.
Qed.

(** C6: for a positive [N], [divide L N] yields chunks whose concatenation
    is [L]; every chunk but the last has exactly [N] elements, the last
    chunk is not empty, and an empty [L] yields no chunk. *)
Theorem divide_partitions {A : Type} (L : list A) (N : Z) :
  0 < N →
  ∃ chunks, Seller.divide L N = Ok chunks
    ∧ concat chunks = L
    ∧ (∀ i c, chunks !! i = Some c → (S i < length chunks)%nat →
              Z.of_nat (length c) = N)
    ∧ (∀ c, last chunks = Some c → c ≠ [])
    ∧ (L = [] → chunks = []).
Proof.
  intros HN. unfold Seller.divide, range.
  destruct (Z.eqb_spec N 0); [lia|]. destruct (Z.ltb_spec N 0); [lia|].
  simpl. eexists; split; [reflexivity|].
  replace N with (Z.of_nat (Z.to_nat N)) by lia.
  replace (Z.to_nat (Z.of_nat (length L) - 0)) with (length L) by lia.
  assert (Hk : (0 < Z.to_nat N)%nat) by lia.
  change 0 with (Z.of_nat 0).
  fold (Loop.chunks_from L (Z.to_nat N) (length L) 0).
  split_and!.
  - rewrite (concat_chunks_from L _ Hk (length L) 0%nat) by lia. done.
  - intros i c Hc Hlen. f_equal.
    eapply (chunks_from_full L _ Hk (length L) 0%nat); eauto.
  - intros c Hc.
    apply (last_Forall (λ c, c ≠ []) _ c (chunks_from_nonempty L _ Hk (length L) 0%nat) Hc).
  - intros ->. done.
Qed.

(** The batches of five elements by two. *)
Lemma divide_partitions_witness :
  ∃ chunks, Seller.divide [1; 2; 3; 4; 5] 2 = Ok chunks
    ∧ concat chunks = [1; 2; 3; 4; 5]
    ∧ (∀ i c, chunks !! i = Some c → (S i < length chunks)%nat →
              Z.of_nat (length c) = 2)
    ∧ (∀ c, last chunks = Some c → c ≠ [])
    ∧ ([1; 2; 3; 4; 5] = [] → chunks = []).
Proof. apply (divide_partitions [1; 2; 3; 4; 5] 2). lia. Defined.

Example divide_five_by_two :
  Seller.divide [1; 2; 3; 4; 5] 2 = Ok [[1; 2]; [3; 4]; [5]].
Proof. reflexivity. Qed.

(** ** Running the monad *)

Import Loop.

Section Run.
Context {S P : Type}.
Implicit Types st : Eff.state S P.

Lemma run_bind {A B} (m : Eff.M S P A) (k : A → Eff.M S P B) st :
  (m ≫= k) st = match m st with
                | (Ok a, st') => k a st'
                | (Raise e, st') => (Raise e, st')
                end.
Proof. reflexivity. Qed.

Lemma run_ret {A} (a : A) st : (mret a : Eff.M S P A) st = (Ok a, st).
Proof. reflexivity. Qed.

Lemma set_list_same l st : set_list l (heap st !!! l) st = st.
Proof.
  destruct st as [h lg]; unfold set_list; simpl. f_equal.
  apply list_insert_id'. intros Hl. by apply list_lookup_lookup_total_lt.
Qed.

Lemma set_list_twice l v v' st : set_list l v (set_list l v' st) = set_list l v st.
Proof. unfold set_list; simpl. by rewrite list_insert_insert_eq. Qed.

Lemma set_list_load l v st :
  (l < length (heap st))%nat → heap (set_list l v st) !!! l = v.
Proof. intros Hl. simpl. by apply list_lookup_total_insert_eq. Qed.

Lemma lookup_total_out (h : list (list string)) l :
  (length h ≤ l)%nat → h !!! l = [].
Proof. intros Hl. rewrite list_lookup_total_alt, lookup_ge_None_2; done. Qed.

Lemma contains_in_range x l st :
  contains x (heap st !!! l) = true → (l < length (heap st))%nat.
Proof.
  intros Hc. destruct (decide (l < length (heap st))%nat); [done|].
  rewrite lookup_total_out in Hc by lia. done.
Qed.

Lemma for_fold_append {A B} (f : A → B) (l : list A) (acc : list B) st :
  for_fold l acc (λ acc x, mret (acc ++ [f x]) : Eff.M S P (list B)) st
  = (Ok (acc ++ map f l), st).
Proof.
  revert acc. induction l as [|x l IH]; intros acc; simpl.
  - by rewrite app_nil_r.
  - rewrite run_bind, run_ret, IH. by rewrite <- app_assoc.
Qed.

End Run.

(** ** The matching loop *)

Lemma contains_spec x l : contains x l = true ↔ x ∈ l.
Proof. unfold contains. apply bool_decide_eq_true. Qed.

Lemma contains_false x l : contains x l = false ↔ x ∉ l.
Proof. unfold contains. apply bool_decide_eq_false. Qed.

Lemma remove_in x l : x ∈ l → ∃ l', remove x l = Ok l'.
Proof.
  induction l as [|y l IH]; intros Hx; [by apply elem_of_nil in Hx|].
  simpl. case_decide; [eauto|].
  apply elem_of_cons in Hx as [->|Hx]; [done|].
  destruct (IH Hx) as [l' ->]. simpl. eauto.
Qed.

Lemma remove_perm x l l' : remove x l = Ok l' → l ≡ₚ x :: l'.
Proof.
  revert l'. induction l as [|y l IH]; intros l'; simpl; [done|].
  case_decide as E.
  - intros [= <-]. by rewrite E.
  - destruct (remove x l) as [r|] eqn:Er; simpl; [|done].
    intros [= <-]. rewrite (IH r eq_refl). apply Permutation_swap.
Qed.

Lemma filter_all {A} (Q : A → Prop) `{∀ x, Decision (Q x)} (l : list A) :
  Forall Q l → filter Q l = l.
Proof.
  induction 1 as [|x l Hx _ IH]; [done|].
  by rewrite filter_cons_True, IH.
Qed.

Lemma filter_ext_in {A} (Q1 Q2 : A → Prop)
    `{∀ x, Decision (Q1 x)} `{∀ x, Decision (Q2 x)} (l : list A) :
  (∀ x, x ∈ l → Q1 x ↔ Q2 x) → filter Q1 l = filter Q2 l.
Proof.
  induction l as [|x l IH]; intros HQ; [done|].
  rewrite !filter_cons, IH by (intros; apply HQ; by right).
  destruct (decide (Q1 x)) as [H1|H1], (decide (Q2 x)) as [H2|H2]; try done;
    apply HQ in H1 || apply HQ in H2; done || by left.
Qed.

Lemma remove_NoDup x l l' :
  NoDup l → remove x l = Ok l' → l' = filter (λ y, y ≠ x) l.
Proof.
  revert l'. induction l as [|y l IH]; intros l' Hnd; simpl; [done|].
  apply NoDup_cons in Hnd as [Hy Hnd].
  case_decide as E.
  - intros [= <-]. subst y. rewrite filter_cons_False by naive_solver.
    symmetry. apply filter_all, Forall_forall. by intros z Hz ->.
  - destruct (remove x l) as [r|] eqn:Er; simpl; [|done].
    intros [= <-]. rewrite filter_cons_True by done. f_equal. by apply IH.
Qed.

Lemma scan_nil rows : scan rows [] = (Ok [], []).
Proof. induction rows as [|r rows IH]; simpl; [done|]. exact IH. Qed.

Section StockLoops.
Context {S P R : Type} (mk : string → Z → R).
Implicit Types st : Eff.state S P.

Lemma run_count (quantity : pyval) st :
  (if decide (str quantity = ">10") then mret 100
   else if decide (str quantity = "1") then mret 0
   else lift (int quantity) : Eff.M S P Z) st
  = (count_of quantity, st).
Proof. unfold count_of. by repeat case_decide. Qed.

Lemma run_stock_steps rows l acc st :
  for_fold rows acc (stock_step (S:=S) (P:=P) mk l) st
  = (bind (scan rows (heap st !!! l)).1 (λ ms, Ok (acc ++ map (uncurry mk) ms)),
     set_list l (scan rows (heap st !!! l)).2 st).
Proof.
  revert acc st. induction rows as [|watch rows IH]; intros acc st.
  - simpl. by rewrite run_ret, app_nil_r, set_list_same.
  - cbn [for_fold scan]. rewrite run_bind. unfold stock_step at 1.
    rewrite run_bind. cbn [load]. fold (code watch).
    destruct (contains (code watch) (heap st !!! l)) eqn:Hin.
    + rewrite run_bind, run_count.
      destruct (count_of (get "Количество" watch)) as [stock|e];
        [|by cbn [fst snd]; rewrite set_list_same].
      rewrite run_bind. unfold list_remove at 1.
      destruct (remove (code watch) (heap st !!! l)) as [ids'|e] eqn:Hrm;
        [|by cbn [fst snd]; rewrite set_list_same].
      rewrite run_ret. fold (set_list l ids' st). rewrite IH.
      rewrite set_list_load by (by eapply contains_in_range).
      rewrite set_list_twice.
      destruct (scan rows ids') as [[ms|e] rest]; simpl; [|done].
      by rewrite <- app_assoc.
    + rewrite run_ret. apply IH.
Qed.

Lemma run_stock_loops rows l st :
  stock_loops mk rows l st
  = (bind (outcome rows (heap st !!! l)) (λ ps, Ok (map (uncurry mk) ps)),
     set_list l (scan rows (heap st !!! l)).2 st).
Proof.
  unfold stock_loops, outcome. rewrite run_bind, run_stock_steps.
  destruct (scan rows (heap st !!! l)) as [[ms|e] rest] eqn:Hscan; simpl; [|done].
  rewrite run_bind. cbn [load].
  assert (heap (set_list l rest st) !!! l = rest) as ->.
  { destruct (decide (l < length (heap st))%nat); [by apply set_list_load|].
    rewrite lookup_total_out in Hscan by lia. rewrite scan_nil in Hscan.
    injection Hscan as _ <-. apply lookup_total_out. simpl. rewrite length_insert. lia. }
  rewrite (for_fold_append (λ offer_id, mk offer_id 0)).
  by rewrite map_app, map_map.
Qed.

End StockLoops.

Lemma seller_create_stocks_run rows l (st : Seller.state) :
  Seller.create_stocks rows l st
  = (bind (outcome rows (heap st !!! l)) (λ ps, Ok (map (uncurry seller_stock) ps)),
     set_list l (scan rows (heap st !!! l)).2 st).
Proof. apply (run_stock_loops seller_stock). Qed.

Lemma market_create_stocks_run (w : Market.world) rows l warehouse_id (st : Market.state) :
  Market.create_stocks w rows l warehouse_id st
  = (bind (outcome rows (heap st !!! l))
          (λ ps, Ok (map (uncurry (market_stock warehouse_id (utcnow w (log st) +:+ "Z"))) ps)),
     set_list l (scan rows (heap st !!! l)).2 st).
Proof.
  unfold Market.create_stocks. rewrite run_bind. cbn [Market.utcnow_iso].
  apply (run_stock_loops (market_stock warehouse_id (utcnow w (log st) +:+ "Z"))).
Qed.

(** Case analysis of one turn of the loop. *)
Lemma scan_cons watch rows ids ms :
  (scan (watch :: rows) ids).1 = Ok ms →
  (code watch ∈ ids ∧ (∃ z ids' ms',
      resolves_to watch z ∧ remove (code watch) ids = Ok ids'
      ∧ (scan rows ids').1 = Ok ms' ∧ ms = (code watch, z) :: ms'
      ∧ (scan (watch :: rows) ids).2 = (scan rows ids').2))
  ∨ ((code watch ∉ ids) ∧ (scan rows ids).1 = Ok ms
      ∧ (scan (watch :: rows) ids).2 = (scan rows ids).2).
Proof.
  simpl. destruct (contains (code watch) ids) eqn:Hin.
  - apply contains_spec in Hin. unfold resolves_to.
    destruct (count_of (get "Количество" watch)) as [z|e]; [|done].
    destruct (remove (code watch) ids) as [ids'|e]; [|done].
    destruct (scan rows ids') as [[ms'|e] rest] eqn:Hrest; simpl; [|done].
    intros [= <-]. left. split; [done|]. exists z, ids', ms'. by rewrite Hrest.
  - apply contains_false in Hin. by right.
Qed.

Lemma scan_perm rows ids ms :
  (scan rows ids).1 = Ok ms → map fst ms ++ (scan rows ids).2 ≡ₚ ids.
Proof.
  revert ids ms. induction rows as [|watch rows IH]; intros ids ms.
  - simpl. by intros [= <-].
  - intros Hscan.
    destruct (scan_cons _ _ _ _ Hscan)
      as [(_ & z & ids' & ms' & _ & Hrm & Hrest & -> & ->)|(_ & Hrest & ->)].
    + simpl. rewrite (IH _ _ Hrest). symmetry. by apply remove_perm.
    + by apply IH.
Qed.

Lemma scan_found rows ids ms :
  (scan rows ids).1 = Ok ms →
  Forall (λ p, ∃ watch, watch ∈ rows ∧ code watch = p.1 ∧ resolves_to watch p.2) ms.
Proof.
  revert ids ms. induction rows as [|watch rows IH]; intros ids ms.
  - simpl. intros [= <-]. constructor.
  - intros Hscan.
    destruct (scan_cons _ _ _ _ Hscan)
      as [(_ & z & ids' & ms' & Hz & _ & Hrest & -> & _)|(_ & Hrest & _)].
    + constructor.
      * exists watch. split_and!; [by left|done|done].
      * eapply Forall_impl; [by eapply IH|].
        intros p (r & Hr & Hp). exists r. split; [by right|done].
    + eapply Forall_impl; [by eapply IH|].
      intros p (r & Hr & Hp). exists r. split; [by right|done].
Qed.

(** The loop looks at the quantity of a row only when the code of the row
    is among the offer ids. *)
Lemma scan_total rows ids0 :
  quantities_ok (matching rows ids0) →
  ∀ ids, ids ⊆ ids0 → ∃ ms, (scan rows ids).1 = Ok ms.
Proof.
  induction rows as [|watch rows IH]; intros Hok ids Hsub; [by exists []|].
  unfold quantities_ok, matching in Hok. rewrite filter_cons in Hok.
  simpl. destruct (contains (code watch) ids) eqn:Hin.
  - apply contains_spec in Hin.
    rewrite decide_True in Hok by (by apply Hsub).
    apply Forall_cons in Hok as [[z Hz] Hok].
    destruct (remove_in _ _ Hin) as [ids' Hrm]. rewrite Hrm.
    unfold resolves_to in Hz. rewrite Hz.
    destruct (IH Hok ids') as [ms Hms].
    { intros x Hx. apply Hsub. rewrite (remove_perm _ _ _ Hrm). by right. }
    destruct (scan rows ids') as [found rest]. simpl in *. subst found. by eexists.
  - apply IH; [|done].
    destruct (decide (code watch ∈ ids0)); [by apply Forall_cons in Hok as [_ ?]|done].
Qed.

(** With distinct offer ids, the record of an id carries the count of the
    first row of that code, and the id stays in the list when there is no
    such row. *)
Lemma scan_first rows ids ms id :
  NoDup ids → id ∈ ids → (scan rows ids).1 = Ok ms →
  match first_row id rows with
  | Some watch => ∃ z, (id, z) ∈ ms ∧ resolves_to watch z
  | None => id ∈ (scan rows ids).2 ∧ ∀ z, (id, z) ∉ ms
  end.
Proof.
  revert ids ms. induction rows as [|watch rows IH]; intros ids ms Hnd Hid.
  - simpl. intros [= <-]. split; [done|]. intros z Hz. by apply elem_of_nil in Hz.
  - intros Hscan. unfold first_row. cbn [find]. fold (first_row id rows).
    destruct (scan_cons _ _ _ _ Hscan)
      as [(Hin & z & ids' & ms' & Hz & Hrm & Hrest & -> & ->)|(Hin & Hrest & ->)].
    + case_bool_decide as Hc.
      * exists z. split; [|done]. rewrite Hc. by left.
      * pose proof (remove_perm _ _ _ Hrm) as Hperm.
        assert (NoDup ids') as Hnd'.
        { rewrite Hperm in Hnd. by apply NoDup_cons in Hnd as [_ ?]. }
        assert (id ∈ ids') as Hid'.
        { rewrite Hperm in Hid. apply elem_of_cons in Hid as [->|?]; done. }
        specialize (IH _ _ Hnd' Hid' Hrest).
        destruct (first_row id rows) as [r|].
        -- destruct IH as (z' & Hz' & Hr). exists z'. split; [by right|done].
        -- destruct IH as [Hin' Hout]. split; [done|].
           intros z' Hz'. apply elem_of_cons in Hz' as [[= ? ?]|Hz']; [done|].
           by apply (Hout z').
    + case_bool_decide as Hc; [by subst id|].
      by apply IH.
Qed.

(** With distinct offer ids, the matched records follow the rows that are
    the first of their code, and the list ends with the ids no row has. *)
Lemma scan_order rows seen ids0 ms :
  NoDup ids0 →
  (scan rows (filter (λ id, id ∉ seen) ids0)).1 = Ok ms →
  Forall2 (λ watch p, p.1 = code watch ∧ resolves_to watch p.2)
          (first_matches seen rows ids0) ms
  ∧ (scan rows (filter (λ id, id ∉ seen) ids0)).2
    = filter (λ id, (id ∉ seen) ∧ (id ∉ map code rows)) ids0.
Proof.
  intros Hnd. revert seen ms. induction rows as [|watch rows IH]; intros seen ms.
  - simpl. intros [= <-]. split; [constructor|].
    apply filter_ext_in. intros id _. split; [|tauto].
    intros ?. split; [done|]. apply not_elem_of_nil.
  - intros Hscan. cbn [first_matches].
    destruct (scan_cons _ _ _ _ Hscan)
      as [(Hin & z & ids' & ms' & Hz & Hrm & Hrest & -> & ->)|(Hin & Hrest & ->)].
    + apply list_elem_of_filter in Hin as [Hseen Hin].
      rewrite !bool_decide_eq_true_2 by done.
      rewrite bool_decide_eq_false_2 by done. cbn [andb negb].
      apply remove_NoDup in Hrm; [|by apply NoDup_filter].
      rewrite list_filter_filter in Hrm.
      assert (ids' = filter (λ id, id ∉ code watch :: seen) ids0) as Hids'.
      { rewrite Hrm. apply filter_ext_in. intros id _.
        rewrite not_elem_of_cons. tauto. }
      rewrite Hids' in *.
      destruct (IH _ _ Hrest) as [HF ->]. split; [by constructor|].
      apply filter_ext_in. intros id _. simpl.
      rewrite !not_elem_of_cons. tauto.
    + assert (filter (λ id, id ∉ seen) ids0
              = filter (λ id, id ∉ code watch :: seen) ids0) as Hsame.
      { apply filter_ext_in. intros id Hid. rewrite not_elem_of_cons.
        split; [|tauto]. intros Hs. split; [|done]. intros ->.
        apply Hin, list_elem_of_filter. done. }
      assert (bool_decide (code watch ∈ ids0) && negb (bool_decide (code watch ∈ seen))
              = false) as ->.
      { apply andb_false_iff. rewrite negb_false_iff.
        destruct (decide (code watch ∈ seen)); [right; by apply bool_decide_eq_true_2|].
        left. apply bool_decide_eq_false_2. intros ?.
        apply Hin, list_elem_of_filter. done. }
      rewrite Hsame in *.
      destruct (IH _ _ Hrest) as [HF ->]. split; [done|].
      apply filter_ext_in. intros id _. simpl.
      rewrite !not_elem_of_cons. tauto.
Qed.

(** ** Stock builder *)

Lemma count_of_quantity_count quantity z :
  count_of quantity = Ok z → quantity_count quantity z.
Proof.
  unfold count_of, quantity_count. repeat case_decide; naive_solver.
Qed.

Lemma outcome_inv rows ids records :
  outcome rows ids = Ok records →
  ∃ ms, (scan rows ids).1 = Ok ms
        ∧ records = ms ++ map (λ offer_id, (offer_id, 0)) (scan rows ids).2.
Proof.
  unfold outcome. destruct (scan rows ids).1 as [ms|e]; simpl; [|done].
  intros [= <-]. by exists ms.
Qed.

Lemma outcome_total rows ids :
  quantities_ok (matching rows ids) → ∃ records, outcome rows ids = Ok records.
Proof.
  intros Hok. destruct (scan_total rows ids Hok ids) as [ms Hms]; [done|].
  unfold outcome. rewrite Hms. by eexists.
Qed.

Lemma map_fst_fallback (rest : list string) :
  map fst (map (λ offer_id : string, (offer_id, 0)) rest) = rest.
Proof. rewrite map_map. simpl. apply map_id. Qed.

Lemma outcome_perm rows ids records :
  outcome rows ids = Ok records → map fst records ≡ₚ ids.
Proof.
  intros (ms & Hms & ->)%outcome_inv.
  rewrite map_app, map_fst_fallback. by apply scan_perm.
Qed.

Lemma outcome_one_record_per_offer rows ids records :
  NoDup ids → outcome rows ids = Ok records →
  one_record_per_offer rows ids records.
Proof.
  intros Hnd Hout. pose proof (outcome_perm _ _ _ Hout) as Hperm.
  apply outcome_inv in Hout as (ms & Hms & ->).
  split_and!.
  - rewrite <- (length_map fst). by rewrite Hperm.
  - intros p Hp. rewrite <- Hperm. apply list_elem_of_fmap. by exists p.
  - by rewrite Hperm.
  - intros id Hid. pose proof (scan_first _ _ _ _ Hnd Hid Hms) as Hfirst.
    destruct (first_row id rows) as [watch|].
    + destruct Hfirst as (z & Hz & Hw). exists z. split; [|done].
      apply elem_of_app. by left.
    + destruct Hfirst as [Hrest _]. exists 0. split; [|done].
      apply elem_of_app. right. apply list_elem_of_fmap. by exists id.
Qed.

Lemma outcome_counts_resolved rows ids records :
  outcome rows ids = Ok records →
  ∃ matched rest, records = matched ++ map (λ offer_id, (offer_id, 0)) rest
                  ∧ counts_resolved rows ids matched rest.
Proof.
  intros Hout. pose proof (outcome_perm _ _ _ Hout) as Hperm.
  apply outcome_inv in Hout as (ms & Hms & ->).
  exists ms, (scan rows ids).2. split; [done|]. split.
  - eapply Forall_impl; [by eapply scan_found|].
    intros p (watch & Hw & Hc & Hz). exists watch.
    split_and!; [done..|]. by apply count_of_quantity_count.
  - intros id Hid Hnone.
    assert (id ∉ map fst ms) as Hout.
    { intros (p & -> & Hp)%list_elem_of_fmap.
      pose proof (scan_found _ _ _ Hms) as Hfound.
      rewrite Forall_forall in Hfound.
      destruct (Hfound p Hp) as (watch & Hw & Hc & _). by apply (Hnone watch). }
    split; [|done].
    rewrite <- Hperm, map_app, map_fst_fallback in Hid.
    apply elem_of_app in Hid as [?|?]; done.
Qed.

Lemma unmatched_alt rows ids :
  filter (λ id, (id ∉ []) ∧ (id ∉ map code rows)) ids = unmatched rows ids.
Proof.
  apply filter_ext_in. intros id _. split; [tauto|].
  intros ?. split; [apply not_elem_of_nil|done].
Qed.

Lemma outcome_ordered rows ids records :
  NoDup ids → outcome rows ids = Ok records →
  ∃ matched, records = matched ++ map (λ offer_id, (offer_id, 0)) (unmatched rows ids)
             ∧ follows_rows rows ids matched.
Proof.
  intros Hnd (ms & Hms & ->)%outcome_inv.
  assert (filter (λ id, id ∉ []) ids = ids) as Hids.
  { apply filter_all, Forall_forall. intros id _. apply not_elem_of_nil. }
  rewrite <- Hids in Hms.
  destruct (scan_order rows [] ids ms Hnd Hms) as [HF Hrest].
  rewrite Hids in Hrest. rewrite Hrest, unmatched_alt. by exists ms.
Qed.

Lemma seller_create_stocks_ok rows l (st st' : Seller.state) stocks :
  Seller.create_stocks rows l st = (Ok stocks, st') →
  ∃ records, outcome rows (heap st !!! l) = Ok records
             ∧ stocks = map (uncurry seller_stock) records.
Proof.
  rewrite seller_create_stocks_run.
  destruct (outcome rows (heap st !!! l)) as [records|e]; simpl; [|done].
  intros [= <- _]. by exists records.
Qed.

Lemma market_create_stocks_ok (w : Market.world) rows l warehouse_id
    (st st' : Market.state) stocks :
  Market.create_stocks w rows l warehouse_id st = (Ok stocks, st') →
  ∃ records, outcome rows (heap st !!! l) = Ok records
             ∧ stocks = map (uncurry (market_stock warehouse_id (utcnow w (log st) +:+ "Z")))
                            records.
Proof.
  rewrite market_create_stocks_run.
  destruct (outcome rows (heap st !!! l)) as [records|e]; simpl; [|done].
  intros [= <- _]. by exists records.
Qed.

Lemma seller_create_stocks_returns rows l (st : Seller.state) :
  quantities_ok (matching rows (heap st !!! l)) →
  ∃ stocks st', Seller.create_stocks rows l st = (Ok stocks, st').
Proof.
  intros [records Hout]%outcome_total.
  rewrite seller_create_stocks_run, Hout. simpl. by do 2 eexists.
Qed.

Lemma market_create_stocks_returns (w : Market.world) rows l warehouse_id
    (st : Market.state) :
  quantities_ok (matching rows (heap st !!! l)) →
  ∃ stocks st', Market.create_stocks w rows l warehouse_id st = (Ok stocks, st').
Proof.
  intros [records Hout]%outcome_total.
  rewrite market_create_stocks_run, Hout. simpl. by do 2 eexists.
Qed.

(** C1: on a working list of distinct offer ids, [create_stocks] of either
    marketplace returns whenever the quantity of every row whose code is
    among the offer ids is a sentinel or a value that [int] converts, and
    what it returns has as many records as there are offer ids, each
    record's id among them, no id twice, and for every id one record whose
    count is derived from the first row of that code, or is 0 when there is
    no such row. *)
Theorem create_stocks_one_record_per_offer
    (w : Market.world) (rows : list row) (l : loc) (warehouse_id : string)
    (st : Seller.state) (mst : Market.state) :
  NoDup (heap st !!! l) → NoDup (heap mst !!! l) →
  ((quantities_ok (matching rows (heap st !!! l)) →
      ∃ stocks st', Seller.create_stocks rows l st = (Ok stocks, st'))
   ∧ (∀ stocks st', Seller.create_stocks rows l st = (Ok stocks, st') →
      ∃ records, stocks = map (uncurry seller_stock) records
                 ∧ one_record_per_offer rows (heap st !!! l) records))
  ∧ ((quantities_ok (matching rows (heap mst !!! l)) →
      ∃ stocks mst', Market.create_stocks w rows l warehouse_id mst = (Ok stocks, mst'))
   ∧ (∀ stocks mst', Market.create_stocks w rows l warehouse_id mst = (Ok stocks, mst') →
      ∃ date records, stocks = map (uncurry (market_stock warehouse_id date)) records
                 ∧ one_record_per_offer rows (heap mst !!! l) records)).
Proof.
  intros Hnd Hmnd. split; split.
  - apply seller_create_stocks_returns.
  - intros stocks st' (records & Hout & ->)%seller_create_stocks_ok.
    exists records. split; [done|]. by apply outcome_one_record_per_offer.
  - apply market_create_stocks_returns.
  - intros stocks st' (records & Hout & ->)%market_create_stocks_ok.
    eexists _, records. split; [done|]. by apply outcome_one_record_per_offer.
Qed.

(** The scenario of the specification has distinct offer ids. *)
Lemma create_stocks_one_record_per_offer_witness :
  ((quantities_ok (matching Sample.rows Sample.ids) →
      ∃ stocks st', Seller.create_stocks Sample.rows 0%nat (Sample.state_of Sample.ids)
                    = (Ok stocks, st'))
   ∧ (∀ stocks st', Seller.create_stocks Sample.rows 0%nat (Sample.state_of Sample.ids)
                    = (Ok stocks, st') →
      ∃ records, stocks = map (uncurry seller_stock) records
                 ∧ one_record_per_offer Sample.rows Sample.ids records))
  ∧ ((quantities_ok (matching Sample.rows Sample.ids) →
      ∃ stocks mst', Market.create_stocks (Sample.world_of Sample.rows Sample.ids)
                       Sample.rows 0%nat "7" (Sample.state_of Sample.ids)
                     = (Ok stocks, mst'))
   ∧ (∀ stocks mst', Market.create_stocks (Sample.world_of Sample.rows Sample.ids)
                       Sample.rows 0%nat "7" (Sample.state_of Sample.ids)
                     = (Ok stocks, mst') →
      ∃ date records, stocks = map (uncurry (market_stock "7" date)) records
                 ∧ one_record_per_offer Sample.rows Sample.ids records)).
Proof.
  apply (create_stocks_one_record_per_offer
           (Sample.world_of Sample.rows Sample.ids) Sample.rows 0%nat "7"
           (Sample.state_of Sample.ids) (Sample.state_of Sample.ids));
    apply (bool_decide_unpack _); vm_compute; exact I.
Defined.

(** The scenario of the specification, in both marketplaces. *)
Example create_stocks_scenario :
  Seller.create_stocks Sample.rows 0%nat (Sample.state_of Sample.ids)
  = (Ok [seller_stock "1" 5; seller_stock "2" 100; seller_stock "3" 0],
     Sample.state_of ["3"])
  ∧ Market.create_stocks (Sample.world_of Sample.rows Sample.ids)
      Sample.rows 0%nat "7" (Sample.state_of Sample.ids)
    = (Ok [market_stock "7" "2024-01-01T00:00:00Z" "1" 5;
           market_stock "7" "2024-01-01T00:00:00Z" "2" 100;
           market_stock "7" "2024-01-01T00:00:00Z" "3" 0],
       Sample.state_of ["3"]).
Proof. split; by vm_compute. Qed.

(** Quantities written with the digits or the blanks of another script are
    converted; one with a control character beside the digits, or with
    more digits than [int] takes, stops the stock builder. *)
Example create_stocks_quantity_texts :
  Seller.create_stocks [Sample.watch "1" "٣" "10"] 0%nat (Sample.state_of ["1"])
  = (Ok [seller_stock "1" 3], Sample.state_of [])
  ∧ Seller.create_stocks
      [Sample.watch "1" (String (ascii_of_nat 194) (String (ascii_of_nat 160) "7")) "10"]
      0%nat (Sample.state_of ["1"])
    = (Ok [seller_stock "1" 7], Sample.state_of [])
  ∧ Seller.create_stocks [Sample.watch "1" (String (ascii_of_nat 28) "7") "10"]
      0%nat (Sample.state_of ["1"])
    = (Raise ValueError, Sample.state_of ["1"])
  ∧ Seller.create_stocks
      [Sample.watch "1" (string_of_list_ascii (repeat "9"%char 4301)) "10"]
      0%nat (Sample.state_of ["1"])
    = (Raise ValueError, Sample.state_of ["1"])
  ∧ Seller.create_stocks [Sample.watch "2" (String (ascii_of_nat 28) "7") "10"]
      0%nat (Sample.state_of ["1"])
    = (Ok [seller_stock "1" 0], Sample.state_of ["1"]).
Proof. split_and!; by vm_compute. Qed.

(** C7: [create_stocks] of either marketplace returns whenever the
    quantity of every row whose code is among the offer ids is a sentinel
    or a value that [int] converts; in what it returns, the count of a
    matched record is the one its row's quantity stands for ([">10"] is
    100, ["1"] is 0, anything else what [int] makes of it) and an offer id
    that is the code of no row has a record of count 0 only; with the
    quantities [">10"], ["1"] and ["7"] and one offer without a row the
    counts are 100, 0, 7 and 0. *)
Theorem create_stocks_quantity_mapping
    (w : Market.world) (rows : list row) (l : loc) (warehouse_id : string)
    (st : Seller.state) (mst : Market.state) :
  ((quantities_ok (matching rows (heap st !!! l)) →
      ∃ stocks st', Seller.create_stocks rows l st = (Ok stocks, st'))
   ∧ (∀ stocks st', Seller.create_stocks rows l st = (Ok stocks, st') →
      ∃ matched rest,
        stocks = map (uncurry seller_stock) matched
                 ++ map (λ offer_id, seller_stock offer_id 0) rest
        ∧ counts_resolved rows (heap st !!! l) matched rest))
  ∧ ((quantities_ok (matching rows (heap mst !!! l)) →
      ∃ stocks mst', Market.create_stocks w rows l warehouse_id mst = (Ok stocks, mst'))
   ∧ (∀ stocks mst', Market.create_stocks w rows l warehouse_id mst = (Ok stocks, mst') →
      ∃ date matched rest,
        stocks = map (uncurry (market_stock warehouse_id date)) matched
                 ++ map (λ offer_id, market_stock warehouse_id date offer_id 0) rest
        ∧ counts_resolved rows (heap mst !!! l) matched rest))
  ∧ Seller.create_stocks Sample.quantity_rows 0%nat (Sample.state_of Sample.quantity_ids)
    = (Ok [seller_stock "a" 100; seller_stock "b" 0; seller_stock "c" 7;
           seller_stock "d" 0],
       Sample.state_of ["d"])
  ∧ (Market.create_stocks w Sample.quantity_rows 0%nat warehouse_id
       (Sample.state_of Sample.quantity_ids)).1
    = Ok (map (uncurry (market_stock warehouse_id (utcnow w [] +:+ "Z")))
              [("a", 100); ("b", 0); ("c", 7); ("d", 0)]).
Proof.
  split; [|split; [|split]].
  - split; [apply seller_create_stocks_returns|].
    intros stocks st' (records & Hout & ->)%seller_create_stocks_ok.
    destruct (outcome_counts_resolved _ _ _ Hout) as (matched & rest & -> & Hres).
    exists matched, rest. split; [|done]. by rewrite map_app, map_map.
  - split; [apply market_create_stocks_returns|].
    intros stocks st' (records & Hout & ->)%market_create_stocks_ok.
    destruct (outcome_counts_resolved _ _ _ Hout) as (matched & rest & -> & Hres).
    eexists _, matched, rest. split; [|done]. by rewrite map_app, map_map.
  - by vm_compute.
  - rewrite market_create_stocks_run. by vm_compute.
Qed.

(** C9: on a working list of distinct offer ids, [create_stocks] of either
    marketplace returns whenever the quantity of every row whose code is
    among the offer ids is a sentinel or a value that [int] converts, and
    what it returns is first the records of the rows that are the first of
    their code among the rows whose code is an offer id, in the order of
    the rows, then the records of count 0 of the offer ids that are the
    code of no row, in the order of the offer ids. *)
Theorem create_stocks_matched_then_fallback
    (w : Market.world) (rows : list row) (l : loc) (warehouse_id : string)
    (st : Seller.state) (mst : Market.state) :
  NoDup (heap st !!! l) → NoDup (heap mst !!! l) →
  ((quantities_ok (matching rows (heap st !!! l)) →
      ∃ stocks st', Seller.create_stocks rows l st = (Ok stocks, st'))
   ∧ (∀ stocks st', Seller.create_stocks rows l st = (Ok stocks, st') →
      ∃ matched,
        stocks = map (uncurry seller_stock) matched
                 ++ map (λ offer_id, seller_stock offer_id 0)
                        (unmatched rows (heap st !!! l))
        ∧ follows_rows rows (heap st !!! l) matched))
  ∧ ((quantities_ok (matching rows (heap mst !!! l)) →
      ∃ stocks mst', Market.create_stocks w rows l warehouse_id mst = (Ok stocks, mst'))
   ∧ (∀ stocks mst', Market.create_stocks w rows l warehouse_id mst = (Ok stocks, mst') →
      ∃ date matched,
        stocks = map (uncurry (market_stock warehouse_id date)) matched
                 ++ map (λ offer_id, market_stock warehouse_id date offer_id 0)
                        (unmatched rows (heap mst !!! l))
        ∧ follows_rows rows (heap mst !!! l) matched)).
Proof.
  intros Hnd Hmnd. split; split.
  - apply seller_create_stocks_returns.
  - intros stocks st' (records & Hout & ->)%seller_create_stocks_ok.
    destruct (outcome_ordered _ _ _ Hnd Hout) as (matched & -> & Hfol).
    exists matched. split; [|done]. by rewrite map_app, map_map.
  - apply market_create_stocks_returns.
  - intros stocks st' (records & Hout & ->)%market_create_stocks_ok.
    destruct (outcome_ordered _ _ _ Hmnd Hout) as (matched & -> & Hfol).
    eexists _, matched. split; [|done]. by rewrite map_app, map_map.
Qed.

(** The order of the records on the scenario of the specification. *)
Lemma create_stocks_matched_then_fallback_witness :
  ((quantities_ok (matching Sample.rows Sample.ids) →
      ∃ stocks st', Seller.create_stocks Sample.rows 0%nat (Sample.state_of Sample.ids)
                    = (Ok stocks, st'))
   ∧ (∀ stocks st', Seller.create_stocks Sample.rows 0%nat (Sample.state_of Sample.ids)
                    = (Ok stocks, st') →
      ∃ matched,
        stocks = map (uncurry seller_stock) matched
                 ++ map (λ offer_id, seller_stock offer_id 0)
                        (unmatched Sample.rows Sample.ids)
        ∧ follows_rows Sample.rows Sample.ids matched))
  ∧ ((quantities_ok (matching Sample.rows Sample.ids) →
      ∃ stocks mst', Market.create_stocks (Sample.world_of Sample.rows Sample.ids)
                       Sample.rows 0%nat "7" (Sample.state_of Sample.ids)
                     = (Ok stocks, mst'))
   ∧ (∀ stocks mst', Market.create_stocks (Sample.world_of Sample.rows Sample.ids)
                       Sample.rows 0%nat "7" (Sample.state_of Sample.ids)
                     = (Ok stocks, mst') →
      ∃ date matched,
        stocks = map (uncurry (market_stock "7" date)) matched
                 ++ map (λ offer_id, market_stock "7" date offer_id 0)
                        (unmatched Sample.rows Sample.ids)
        ∧ follows_rows Sample.rows Sample.ids matched)).
Proof.
  apply (create_stocks_matched_then_fallback
           (Sample.world_of Sample.rows Sample.ids) Sample.rows 0%nat "7"
           (Sample.state_of Sample.ids) (Sample.state_of Sample.ids));
    apply (bool_decide_unpack _); vm_compute; exact I.
Defined.

(** ** Price builder *)

Section PriceLoop.
Context {S P R : Type} (f : row → result R).
Context (step : list R → row → Eff.M S P (list R)) (l : loc).
Hypothesis step_run : ∀ prices watch st,
  step prices watch st
  = (if contains (code watch) (heap st !!! l)
     then bind (f watch) (λ p, Ok (prices ++ [p]))
     else Ok prices, st).

Lemma run_price_steps rows acc st :
  for_fold rows acc step st
  = (bind (collect f (matching rows (heap st !!! l))) (λ ps, Ok (acc ++ ps)), st).
Proof.
  revert acc. induction rows as [|watch rows IH]; intros acc; simpl.
  - by rewrite run_ret, app_nil_r.
  - rewrite run_bind, step_run. unfold matching. rewrite filter_cons.
    destruct (contains (code watch) (heap st !!! l)) eqn:Hin.
    + apply contains_spec in Hin. rewrite decide_True by done. simpl.
      destruct (f watch) as [p|e]; simpl; [|done].
      rewrite IH. unfold matching.
      destruct (collect f _) as [ps|e]; simpl; [|done].
      by rewrite <- app_assoc.
    + apply contains_false in Hin. rewrite decide_False by done. apply IH.
Qed.

End PriceLoop.

Lemma seller_create_prices_run rows l (st : Seller.state) :
  Seller.create_prices rows l st
  = (collect seller_price (matching rows (heap st !!! l)), st).
Proof.
  unfold Seller.create_prices.
  rewrite (run_price_steps seller_price _ l).
  - by destruct (collect seller_price _).
  - intros prices watch st0. rewrite run_bind. cbn [load]. fold (code watch).
    destruct (contains (code watch) (heap st0 !!! l)); [|done].
    unfold seller_price. rewrite run_bind. unfold lift.
    by destruct (Seller.price_conversion_of (get "Цена" watch)).
Qed.

Lemma market_create_prices_run rows l (st : Market.state) :
  Market.create_prices rows l st
  = (collect market_price (matching rows (heap st !!! l)), st).
Proof.
  unfold Market.create_prices.
  rewrite (run_price_steps market_price _ l).
  - by destruct (collect market_price _).
  - intros prices watch st0. rewrite run_bind. cbn [load]. fold (code watch).
    destruct (contains (code watch) (heap st0 !!! l)); [|done].
    unfold market_price. rewrite run_bind. unfold lift.
    destruct (Market.price_conversion_of (get "Цена" watch)) as [converted|e];
      simpl; [|done].
    rewrite run_bind. by destruct (int_of_str converted).
Qed.

Lemma collect_ok {R} (f : row → result R) rows ps :
  collect f rows = Ok ps → Forall2 (λ watch p, f watch = Ok p) rows ps.
Proof.
  revert ps. induction rows as [|watch rows IH]; intros ps; simpl.
  - intros [= <-]. constructor.
  - destruct (f watch) as [p|e] eqn:Hf; simpl; [|done].
    destruct (collect f rows) as [ps'|e]; simpl; [|done].
    intros [= <-]. constructor; [done|by apply IH].
Qed.

Lemma collect_total {R} (f : row → result R) rows :
  Forall (λ watch, ∃ p, f watch = Ok p) rows → ∃ ps, collect f rows = Ok ps.
Proof.
  induction 1 as [|watch rows [p Hp] _ [ps IH]]; simpl; [by eexists|].
  rewrite Hp, IH. simpl. by eexists.
Qed.

Lemma collect_raises {R} (f : row → result R) rows watch e :
  watch ∈ rows → f watch = Raise e → ∃ e', collect f rows = Raise e'.
Proof.
  induction rows as [|r rows IH]; intros Hin Hf; [by apply elem_of_nil in Hin|].
  simpl. apply elem_of_cons in Hin as [<-|Hin].
  - rewrite Hf. by eexists.
  - destruct (f r); simpl; [|by eexists].
    destruct (IH Hin Hf) as [e' ->]. by eexists.
Qed.

Lemma seller_price_priced watch p : seller_price watch = Ok p ↔ seller_priced watch p.
Proof.
  unfold seller_price, seller_priced, Seller.price_conversion_of.
  destruct (get "Цена" watch) as [s| |]; simpl; split.
  - intros [= <-]. by exists s.
  - by intros (s' & [= <-] & ->).
  - done.
  - by intros (? & ? & _).
  - done.
  - by intros (? & ? & _).
Qed.

Lemma market_price_priced watch p : market_price watch = Ok p ↔ market_priced watch p.
Proof.
  unfold market_price, market_priced, Market.price_conversion_of,
    Seller.price_conversion_of.
  destruct (get "Цена" watch) as [s| |]; simpl; split.
  - destruct (int_of_str (Seller.price_conversion s)) as [z|] eqn:Hz; simpl; [|done].
    intros [= <-]. by exists s, z.
  - intros (s' & z & [= <-] & -> & ->). done.
  - done.
  - by intros (? & ? & ? & _).
  - done.
  - by intros (? & ? & ? & _).
Qed.

(** [int] on the output of the price normaliser *)

Lemma digit_not_space c : is_digit c = true → is_space c = false.
Proof. destruct c as [[] [] [] [] [] [] [] []]; by vm_compute. Qed.

Lemma digit_is_ascii c :
  is_digit c = true → (byte c <? 128)%Z = true ∧ to_ascii (byte c) = Some c.
Proof. destruct c as [[] [] [] [] [] [] [] []]; by vm_compute. Qed.

(** A text of ASCII digits is read as it is. *)
Lemma ascii_form_digits s :
  all_digits s = true → code_points s ≫= ascii_form = Some s.
Proof.
  induction s as [|c s IH]; [done|]. cbn [all_digits].
  intros [Hc Hs]%andb_true_iff. destruct (digit_is_ascii c Hc) as [Hb Ha].
  specialize (IH Hs). cbn [code_points]. cbv zeta. rewrite Hb.
  destruct (code_points s) as [cps|]; [|done].
  cbn [fmap option_fmap option_map mbind option_bind ascii_form] in *.
  by rewrite Ha, IH.
Qed.

Lemma int_of_str_digits_eq s :
  all_digits s = true →
  int_of_str s
  = if (digit_count s <=? max_str_digits)%Z then literal_value s else None.
Proof.
  intros Hs. pose proof (ascii_form_digits s Hs) as Hf. unfold int_of_str.
  destruct (code_points s) as [cps|]; [|done].
  cbn [mbind option_bind] in *. by rewrite Hf.
Qed.

(** [int] on texts: signs, underscores and blanks; the digits and blanks
    of other scripts; control characters; the bound on the digits. *)
Example int_of_text_cases :
  int (PStr " -1_000 ") = Ok (-1000)
  ∧ int (PStr "٣") = Ok 3
  ∧ int (PStr "+٣_٣") = Ok 33
  ∧ int (PStr (String (ascii_of_nat 194) (String (ascii_of_nat 160) "7"))) = Ok 7
  ∧ int (PStr (String (ascii_of_nat 28) "7")) = Raise ValueError
  ∧ int (PStr (String "7" (String (ascii_of_nat 31) ""))) = Raise ValueError
  ∧ int (PStr "1__0") = Raise ValueError
  ∧ int (PStr "- 7") = Raise ValueError
  ∧ int (PStr "7.0") = Raise ValueError
  ∧ int (PStr "") = Raise ValueError
  ∧ (∃ z, int (PStr (string_of_list_ascii (repeat "9"%char 4300))) = Ok z)
  ∧ int (PStr (string_of_list_ascii (repeat "9"%char 4301))) = Raise ValueError
  ∧ int (PStr (string_of_list_ascii (repeat "0"%char 4301))) = Raise ValueError.
Proof. split_and!; try (by vm_compute). eexists. by vm_compute. Qed.

Lemma rstrip_digits s : all_digits s = true → rstrip s = s.
Proof.
  induction s as [|c s IH]; simpl; [done|].
  intros [Hc Hs]%andb_true_iff. rewrite (IH Hs).
  destruct s; [|done]. by rewrite (digit_not_space c Hc).
Qed.

Lemma strip_digits s : all_digits s = true → strip s = s.
Proof.
  intros Hs. unfold strip.
  assert (lstrip s = s) as ->; [|by apply rstrip_digits].
  destruct s as [|c s]; simpl in *; [done|].
  apply andb_true_iff in Hs as [Hc _]. by rewrite (digit_not_space c Hc).
Qed.

Lemma digits_value_digits acc s :
  all_digits s = true → ∃ z, digits_value acc false s = Some z.
Proof.
  revert acc. induction s as [|c s IH]; intros acc; simpl; [by eexists|].
  intros [-> Hs]%andb_true_iff. by apply IH.
Qed.

Lemma literal_value_digits s :
  all_digits s = true → s ≠ "" → ∃ z, literal_value s = Some z.
Proof.
  intros Hs Hne. unfold literal_value. rewrite (strip_digits s Hs).
  destruct s as [|c s]; [done|]. simpl in Hs.
  apply andb_true_iff in Hs as [Hc Hs].
  assert (unsigned_value (String c s) = digits_value (digit_value c) false s) as Hu.
  { simpl. by rewrite Hc. }
  destruct (digits_value_digits (digit_value c) s Hs) as [z Hz].
  exists z. rewrite <- Hz, <- Hu.
  destruct c as [[] [] [] [] [] [] [] []]; try done; by vm_compute in Hc.
Qed.

Lemma literal_value_empty : literal_value "" = None.
Proof. reflexivity. Qed.

Lemma int_of_str_digits s :
  all_digits s = true → s ≠ "" → (digit_count s ≤ max_str_digits)%Z →
  ∃ z, int_of_str s = Some z.
Proof.
  intros Hs Hne Hmax. rewrite (int_of_str_digits_eq s Hs).
  rewrite (proj2 (Z.leb_le _ _) Hmax). by apply literal_value_digits.
Qed.

Lemma int_of_str_digits_inv s z :
  all_digits s = true → int_of_str s = Some z →
  s ≠ "" ∧ (digit_count s ≤ max_str_digits)%Z.
Proof.
  intros Hs. rewrite (int_of_str_digits_eq s Hs).
  destruct (Z.leb_spec (digit_count s) max_str_digits) as [Hmax|]; [|done].
  intros Hz. split; [|done]. intros ->. by rewrite literal_value_empty in Hz.
Qed.

Lemma digits_only_has_digit s : has_digit s = true → digits_only s ≠ "".
Proof.
  induction s as [|c s IH]; simpl; [done|].
  destruct (is_digit c); simpl; [done|auto].
Qed.

Lemma digit_count_digits_only s : digit_count (digits_only s) = digit_count s.
Proof.
  induction s as [|c s IH]; [done|]. cbn [digits_only digit_count].
  destruct (is_digit c) eqn:Hc; [|by rewrite IH].
  cbn [digit_count]. by rewrite Hc, IH.
Qed.

Lemma price_converts_priced watch :
  price_converts watch ↔ ∃ p, market_price watch = Ok p.
Proof.
  split.
  - intros (s & Hs & Hd & Hmax).
    destruct (price_conversion_digits s) as (Heq & Hall).
    destruct (int_of_str_digits (Seller.price_conversion s)) as [z Hz]; [done|..].
    { rewrite Heq. by apply digits_only_has_digit. }
    { by rewrite Heq, digit_count_digits_only. }
    eexists. apply market_price_priced. by exists s, z.
  - intros [p (s & z & Hs & Hz & _)%market_price_priced].
    destruct (price_conversion_digits s) as (Heq & Hall).
    destruct (int_of_str_digits_inv _ _ Hall Hz) as [Hne Hmax].
    exists s. split_and!; [done| |].
    + destruct (has_digit (truncate_at_dot s)) eqn:Hd; [done|].
      by rewrite Heq, (digits_only_no_digit _ Hd) in Hne.
    + by rewrite Heq, digit_count_digits_only in Hmax.
Qed.

Lemma Forall2_elem_of_r {A B} (Q : A → B → Prop) (l : list A) (k : list B) y :
  Forall2 Q l k → y ∈ k → ∃ x, x ∈ l ∧ Q x y.
Proof.
  induction 1 as [|x y' l k Hxy _ IH]; intros Hy; [by apply elem_of_nil in Hy|].
  apply elem_of_cons in Hy as [->|Hy].
  - exists x. split; [by left|done].
  - destruct (IH Hy) as (x' & Hx' & HQ). exists x'. split; [by right|done].
Qed.

Lemma Forall2_elem_of_l {A B} (Q : A → B → Prop) (l : list A) (k : list B) x :
  Forall2 Q l k → x ∈ l → ∃ y, y ∈ k ∧ Q x y.
Proof.
  induction 1 as [|x' y l k Hxy _ IH]; intros Hx; [by apply elem_of_nil in Hx|].
  apply elem_of_cons in Hx as [->|Hx].
  - exists y. split; [by left|done].
  - destruct (IH Hx) as (y' & Hy' & HQ). exists y'. split; [by right|done].
Qed.

Lemma matching_elem_of rows ids watch :
  watch ∈ matching rows ids ↔ code watch ∈ ids ∧ watch ∈ rows.
Proof. unfold matching. by rewrite list_elem_of_filter. Qed.

(** Whenever a row whose code is an offer id has a price without a digit
    before the first ['.'], the price builder of market.py raises, and the
    one of seller.py, when it returns, returns an empty price for the row. *)
Lemma price_without_digit rows l (st : Seller.state) (mst : Market.state) watch :
  watch ∈ rows → price_has_no_digit watch →
  (code watch ∈ heap mst !!! l → ∃ e, Market.create_prices rows l mst = (Raise e, mst))
  ∧ (code watch ∈ heap st !!! l →
     ∀ prices st', Seller.create_prices rows l st = (Ok prices, st') →
     ∃ p, p ∈ prices ∧ Seller.Price.offer_id p = code watch ∧ Seller.Price.price p = "").
Proof.
  intros Hw (s & Hs & Hnd). split; intros Hin.
  - rewrite market_create_prices_run.
    destruct (collect_raises market_price (matching rows (heap mst !!! l)) watch ValueError)
      as [e ->]; [by apply matching_elem_of| |by eexists].
    unfold market_price, Market.price_conversion_of, Seller.price_conversion_of.
    rewrite Hs. simpl.
    destruct (price_conversion_digits s) as [-> _].
    by rewrite digits_only_no_digit.
  - intros prices st'. rewrite seller_create_prices_run. intros [= Hc _].
    apply collect_ok in Hc.
    assert (watch ∈ matching rows (heap st !!! l)) as Hm by by apply matching_elem_of.
    revert Hm. induction Hc as [|r p rs ps Hr _ IH]; intros Hm.
    + by apply elem_of_nil in Hm.
    + apply elem_of_cons in Hm as [<-|Hm].
      * exists p. split; [by left|].
        apply seller_price_priced in Hr as (s' & Hs' & ->).
        rewrite Hs in Hs'. injection Hs' as <-. split; [done|]. simpl.
        destruct (price_conversion_digits s) as [-> _].
        by apply digits_only_no_digit.
      * destruct (IH Hm) as (p' & Hp' & ?). exists p'. split; [by right|done].
Qed.

(** Whenever a row whose code is an offer id has a price with more digits
    before the first ['.'] than [int] takes, the price builder of market.py
    raises. *)
Lemma price_beyond_limit rows l (mst : Market.state) watch :
  watch ∈ rows → price_exceeds_limit watch → code watch ∈ heap mst !!! l →
  ∃ e, Market.create_prices rows l mst = (Raise e, mst).
Proof.
  intros Hw (s & Hs & Hmax) Hin. rewrite market_create_prices_run.
  destruct (collect_raises market_price (matching rows (heap mst !!! l)) watch ValueError)
    as [e ->]; [by apply matching_elem_of| |by eexists].
  unfold market_price, Market.price_conversion_of, Seller.price_conversion_of.
  rewrite Hs. simpl.
  destruct (price_conversion_digits s) as [Heq Hall].
  rewrite (int_of_str_digits_eq _ Hall), Heq, digit_count_digits_only.
  by rewrite (proj2 (Z.leb_gt _ _) Hmax).
Qed.

(** C8, as the code has it: [create_prices] of either marketplace never
    changes the state, so the offer ids it is given stay as they are; what
    it returns holds one price record for each row whose code is among the
    offer ids, in the order of the rows, and so none for an offer id that
    is the code of no row. The one of seller.py returns whenever the prices
    of those rows are texts; the one of market.py returns exactly when they
    are texts with at least one digit before their first ['.'] and no more
    digits there than [int] takes (4300), and raises when one of them has
    no digit there, or more than that. *)
Theorem create_prices_one_record_per_matching_row
    (rows : list row) (l : loc) (st : Seller.state) (mst : Market.state) :
  ((Seller.create_prices rows l st).2 = st
   ∧ (Forall price_is_text (matching rows (heap st !!! l)) →
      ∃ prices, Seller.create_prices rows l st = (Ok prices, st))
   ∧ (∀ prices st', Seller.create_prices rows l st = (Ok prices, st') →
      Forall2 seller_priced (matching rows (heap st !!! l)) prices
      ∧ (∀ id, (∀ watch, watch ∈ rows → code watch ≠ id) →
               id ∉ map Seller.Price.offer_id prices)))
  ∧ ((Market.create_prices rows l mst).2 = mst
   ∧ (Forall price_converts (matching rows (heap mst !!! l))
      ↔ ∃ prices, Market.create_prices rows l mst = (Ok prices, mst))
   ∧ (Exists price_has_no_digit (matching rows (heap mst !!! l)) →
      ∃ e, Market.create_prices rows l mst = (Raise e, mst))
   ∧ (Exists price_exceeds_limit (matching rows (heap mst !!! l)) →
      ∃ e, Market.create_prices rows l mst = (Raise e, mst))
   ∧ (∀ prices mst', Market.create_prices rows l mst = (Ok prices, mst') →
      Forall2 market_priced (matching rows (heap mst !!! l)) prices
      ∧ (∀ id, (∀ watch, watch ∈ rows → code watch ≠ id) →
               id ∉ map Market.Price.id prices))).
Proof.
  split; split_and!.
  - by rewrite seller_create_prices_run.
  - rewrite seller_create_prices_run.
    intros Htext. destruct (collect_total seller_price (matching rows (heap st !!! l)))
      as [prices ->]; [|by eexists].
    eapply Forall_impl; [exact Htext|]. intros watch [s Hs].
    eexists. apply seller_price_priced. by exists s.
  - rewrite seller_create_prices_run.
    intros prices st' [= Hc _]. apply collect_ok in Hc.
    assert (Forall2 seller_priced (matching rows (heap st !!! l)) prices) as HF.
    { eapply Forall2_impl; [exact Hc|]. intros ??. apply seller_price_priced. }
    split; [done|]. intros id Hnone (p & -> & Hp)%list_elem_of_fmap.
    destruct (Forall2_elem_of_r _ _ _ _ HF Hp) as (watch & Hw & s & _ & ->).
    apply matching_elem_of in Hw as [_ Hw]. by apply (Hnone watch).
  - by rewrite market_create_prices_run.
  - rewrite market_create_prices_run. split.
    + intros Hdig.
      destruct (collect_total market_price (matching rows (heap mst !!! l)))
        as [prices ->]; [|by eexists].
      eapply Forall_impl; [exact Hdig|]. intros watch. apply price_converts_priced.
    + intros [prices [= Hc]]. apply collect_ok in Hc.
      apply Forall_forall. intros watch Hw.
      destruct (Forall2_elem_of_l _ _ _ _ Hc Hw) as (p & _ & Hp).
      apply price_converts_priced. by exists p.
  - intros (watch & [Hc Hw]%matching_elem_of & Hnd)%Exists_exists.
    by apply (price_without_digit rows l st mst watch).
  - intros (watch & [Hc Hw]%matching_elem_of & Hnd)%Exists_exists.
    by apply (price_beyond_limit rows l mst watch).
  - rewrite market_create_prices_run.
    intros prices st' [= Hc _]. apply collect_ok in Hc.
    assert (Forall2 market_priced (matching rows (heap mst !!! l)) prices) as HF.
    { eapply Forall2_impl; [exact Hc|]. intros ??. apply market_price_priced. }
    split; [done|]. intros id Hnone (p & -> & Hp)%list_elem_of_fmap.
    destruct (Forall2_elem_of_r _ _ _ _ HF Hp) as (watch & Hw & s & z & _ & _ & ->).
    apply matching_elem_of in Hw as [_ Hw]. by apply (Hnone watch).
Qed.

(** C8, as stated, fails: the code of the row is an offer id, yet
    [create_prices] of market.py returns no price record for it; it raises
    [ValueError], since the price of the row has no digit to convert. *)
Lemma market_create_prices_raises :
  Sample.no_digit_rows = [Sample.watch "1" "5" "руб. 10"]
  ∧ code (Sample.watch "1" "5" "руб. 10") ∈ ["1"]
  ∧ Market.create_prices Sample.no_digit_rows 0%nat (Sample.state_of ["1"])
    = (Raise ValueError, Sample.state_of ["1"]).
Proof. split_and!; [done|by left|by vm_compute]. Qed.

(** The scenario of the specification: two priced rows, three offer ids. *)
Example create_prices_scenario :
  (Seller.create_prices Sample.rows 0%nat (Sample.state_of Sample.ids)).1
  = Ok [ {| Seller.Price.auto_action_enabled := "UNKNOWN";
            Seller.Price.currency_code := "RUB";
            Seller.Price.offer_id := "1";
            Seller.Price.old_price := "0";
            Seller.Price.price := "1000" |};
         {| Seller.Price.auto_action_enabled := "UNKNOWN";
            Seller.Price.currency_code := "RUB";
            Seller.Price.offer_id := "2";
            Seller.Price.old_price := "0";
            Seller.Price.price := "2000" |} ]
  ∧ (Market.create_prices Sample.rows 0%nat (Sample.state_of Sample.ids)).1
    = Ok [ {| Market.Price.id := "1";
              Market.Price.price := {| Market.Value.value := 1000;
                                       Market.Value.currencyId := "RUR" |} |};
           {| Market.Price.id := "2";
              Market.Price.price := {| Market.Value.value := 2000;
                                       Market.Value.currencyId := "RUR" |} |} ].
Proof. split; by vm_compute. Qed.


(** C10: there is a row whose code is an offer id and whose price has no
    digit before the first ['.'] on which [create_prices] of market.py
    raises [ValueError] while the one of seller.py returns a record whose
    price is the empty text. *)
Theorem price_builders_differ_without_digit :
  ∃ (rows : list row) (ids : list string) (watch : row),
    watch ∈ rows ∧ code watch ∈ ids ∧ price_has_no_digit watch
    ∧ Market.create_prices rows 0%nat (Sample.state_of ids)
      = (Raise ValueError, Sample.state_of ids)
    ∧ ∃ p, Seller.create_prices rows 0%nat (Sample.state_of ids)
           = (Ok [p], Sample.state_of ids)
           ∧ Seller.Price.offer_id p = code watch
           ∧ Seller.Price.price p = "".
Proof.
  exists Sample.no_digit_rows, ["1"], (Sample.watch "1" "5" "руб. 10").
  split_and!.
  - by left.
  - by left.
  - exists "руб. 10". split; by vm_compute.
  - by vm_compute.
  - eexists. split_and!; by vm_compute.
Qed.

(** ** Entry points *)

Section Traps.
Context {S P : Type}.
Implicit Types st : Eff.state S P.

Lemma run_try_except (body : Eff.M S P unit) (handler : exn → Eff.M S P unit) st :
  (∀ e st1, ∃ error text,
      handler e st1 = (Ok tt, {| heap := heap st1; log := log st1 ++ [Print error text] |})) →
  ∃ st', try_except body handler st = (Ok tt, st') ∧ trapped (body st) st'.
Proof.
  intros Hh. unfold try_except. destruct (body st) as [[[]|e] st1].
  - by exists st1.
  - destruct (Hh e st1) as (error & text & ->). eexists. split; [done|].
    by exists error, text.
Qed.

Lemma run_env_str (w : Eff.world S P) name v st :
  environ w name = Some v → env_str w name st = (Ok v, st).
Proof. unfold env_str, lift. by intros ->. Qed.

End Traps.

Lemma seller_main_except_prints (w : Seller.world) e (st1 : Seller.state) :
  ∃ error text,
    Seller.main_except e st1
    = (Ok tt, {| heap := heap st1; log := log st1 ++ [Print error text] |}).
Proof. destruct e; by do 2 eexists. Qed.

Lemma market_main_except_prints (w : Market.world) e (st1 : Market.state) :
  ∃ error text,
    Market.main_except e st1
    = (Ok tt, {| heap := heap st1; log := log st1 ++ [Print error text] |}).
Proof. destruct e; by do 2 eexists. Qed.

(** C4, as the code has it: once the environment variables are read (and,
    in market.py, the feed is downloaded), [main] returns normally whatever
    the suite of its [try] statement does, and when the suite raises, a
    message is printed. *)
Theorem main_traps_exceptions_of_try_suite
    (sw : Seller.world) (mw : Market.world) (st : Seller.state) (mst : Market.state)
    (seller_token client_id : string)
    (market_token campaign_fbs_id campaign_dbs_id warehouse_fbs_id warehouse_dbs_id : string)
    (watch_remnants : list row) :
  environ sw "SELLER_TOKEN" = Some seller_token →
  environ sw "CLIENT_ID" = Some client_id →
  environ mw "MARKET_TOKEN" = Some market_token →
  environ mw "FBS_ID" = Some campaign_fbs_id →
  environ mw "DBS_ID" = Some campaign_dbs_id →
  environ mw "WAREHOUSE_FBS_ID" = Some warehouse_fbs_id →
  environ mw "WAREHOUSE_DBS_ID" = Some warehouse_dbs_id →
  feed mw (log mst) = Ok watch_remnants →
  (∃ st', Seller.main sw st = (Ok tt, st')
          ∧ trapped (Seller.main_try sw client_id seller_token st) st')
  ∧ (∃ mst', Market.main mw mst = (Ok tt, mst')
          ∧ trapped (Market.main_try mw watch_remnants market_token
                       campaign_fbs_id campaign_dbs_id warehouse_fbs_id warehouse_dbs_id
                       {| heap := heap mst; log := log mst ++ [DownloadStock] |}) mst').
Proof.
  intros Hst Hci Hmt Hfbs Hdbs Hwf Hwd Hfeed. split.
  - unfold Seller.main.
    rewrite run_bind, (run_env_str sw _ _ _ Hst).
    rewrite run_bind, (run_env_str sw _ _ _ Hci).
    apply run_try_except. intros e st1. apply (seller_main_except_prints sw).
  - unfold Market.main.
    rewrite run_bind, (run_env_str mw _ _ _ Hmt).
    rewrite run_bind, (run_env_str mw _ _ _ Hfbs).
    rewrite run_bind, (run_env_str mw _ _ _ Hdbs).
    rewrite run_bind, (run_env_str mw _ _ _ Hwf).
    rewrite run_bind, (run_env_str mw _ _ _ Hwd).
    rewrite run_bind. unfold download_stock, call. rewrite Hfeed.
    apply run_try_except. intros e st1. apply (market_main_except_prints mw).
Qed.

(** Both scripts in a world where the submissions of stocks time out. *)
Lemma main_traps_exceptions_of_try_suite_witness :
  (∃ st', Seller.main (Sample.world_timing_out Sample.rows Sample.ids) Sample.start
          = (Ok tt, st')
          ∧ trapped (Seller.main_try (Sample.world_timing_out Sample.rows Sample.ids)
                       "x" "x" Sample.start) st')
  ∧ (∃ mst', Market.main (Sample.world_timing_out Sample.rows Sample.ids) Sample.start
             = (Ok tt, mst')
          ∧ trapped (Market.main_try (Sample.world_timing_out Sample.rows Sample.ids)
                       Sample.rows "x" "x" "x" "x" "x"
                       {| heap := []; log := [DownloadStock] |}) mst').
Proof.
  apply (main_traps_exceptions_of_try_suite
           (Sample.world_timing_out Sample.rows Sample.ids)
           (Sample.world_timing_out Sample.rows Sample.ids)
           Sample.start Sample.start "x" "x" "x" "x" "x" "x" "x" Sample.rows);
    reflexivity.
Defined.

(** A timeout of the first submission of stocks, trapped by both scripts. *)
Example main_traps_timeout :
  (Seller.main (Sample.world_timing_out Sample.rows Sample.ids) Sample.start).1 = Ok tt
  ∧ last (log (Seller.main (Sample.world_timing_out Sample.rows Sample.ids) Sample.start).2)
    = Some (Print None "Превышено время ожидания...")
  ∧ (Market.main (Sample.world_timing_out Sample.rows Sample.ids) Sample.start).1 = Ok tt
  ∧ last (log (Market.main (Sample.world_timing_out Sample.rows Sample.ids) Sample.start).2)
    = Some (Print None "Превышено время ожидания...").
Proof. split_and!; by vm_compute. Qed.

(** C4, as stated, fails: a missing environment variable makes [main] of
    either script raise [EnvError], with nothing printed. *)
Lemma main_env_error_escapes :
  Seller.main Sample.world_without_env Sample.start = (Raise EnvError, Sample.start)
  ∧ Market.main Sample.world_without_env Sample.start = (Raise EnvError, Sample.start).
Proof. split; by vm_compute. Qed.

(** A failing download of the feed: trapped by seller.py, where it is part
    of the [try] suite, and not by market.py, where it comes before. *)
Example main_feed_error :
  Seller.main Sample.world_without_feed Sample.start
  = (Ok tt, {| heap := [[]];
               log := [FetchOfferIds "x" "x"; DownloadStock;
                       Print (Some ConnectionError) "Ошибка соединения"] |})
  ∧ Market.main Sample.world_without_feed Sample.start
    = (Raise ConnectionError, {| heap := []; log := [DownloadStock] |}).
Proof. split; by vm_compute. Qed.

(** ** Computations that submit no prices *)

Section Quiet.
Context {S P : Type}.
Implicit Types st : Eff.state S P.

Lemma quiet_same_log {A} (m : Eff.M S P A) :
  (∀ st, log (m st).2 = log st) → submits_no_prices m.
Proof. intros Hm st. exists []. by rewrite Hm, app_nil_r. Qed.

Lemma quiet_ret {A} (a : A) : submits_no_prices (mret a : Eff.M S P A).
Proof. by apply quiet_same_log. Qed.

Lemma quiet_lift {A} (r : result A) : submits_no_prices (lift r : Eff.M S P A).
Proof. by apply quiet_same_log. Qed.

Lemma quiet_load l : submits_no_prices (load l : Eff.M S P _).
Proof. by apply quiet_same_log. Qed.

Lemma quiet_alloc v : submits_no_prices (alloc v : Eff.M S P _).
Proof. by apply quiet_same_log. Qed.

Lemma quiet_env_str (w : Eff.world S P) name : submits_no_prices (env_str w name).
Proof. by apply quiet_same_log. Qed.

Lemma quiet_bind {A B} (m : Eff.M S P A) (k : A → Eff.M S P B) :
  submits_no_prices m → (∀ a, submits_no_prices (k a)) → submits_no_prices (m ≫= k).
Proof.
  intros Hm Hk st. rewrite run_bind.
  destruct (Hm st) as (ev1 & Hlog1 & Hev1).
  destruct (m st) as [[a|e] st1]; simpl in *.
  - destruct (Hk a st1) as (ev2 & Hlog2 & Hev2).
    exists (ev1 ++ ev2). rewrite Hlog2, Hlog1, app_assoc.
    split; [done|]. by apply Forall_app.
  - by exists ev1.
Qed.

Lemma quiet_try_except {A} (body : Eff.M S P A) (handler : exn → Eff.M S P A) :
  submits_no_prices body → (∀ e, submits_no_prices (handler e)) →
  submits_no_prices (try_except body handler).
Proof.
  intros Hm Hk st. unfold try_except.
  destruct (Hm st) as (ev1 & Hlog1 & Hev1).
  destruct (body st) as [[a|e] st1]; simpl in *.
  - by exists ev1.
  - destruct (Hk e st1) as (ev2 & Hlog2 & Hev2).
    exists (ev1 ++ ev2). rewrite Hlog2, Hlog1, app_assoc.
    split; [done|]. by apply Forall_app.
Qed.

Lemma quiet_for_each {A} (l : list A) (body : A → Eff.M S P unit) :
  (∀ x, submits_no_prices (body x)) → submits_no_prices (for_each l body).
Proof.
  intros Hbody. induction l as [|x l IH]; simpl; [apply quiet_ret|].
  apply quiet_bind; [apply Hbody|]. by intros _.
Qed.

Lemma quiet_call {A} (e : event S P) (outcome : list (event S P) → result A) :
  ¬ submits_prices e → submits_no_prices (call e outcome).
Proof. intros He st. exists [e]. split; [done|]. by constructor. Qed.

Lemma quiet_print error text : submits_no_prices (print error text : Eff.M S P _).
Proof. intros st. exists [Print error text]. split; [done|]. constructor; [tauto|done]. Qed.

Lemma quiet_get_offer_ids (w : Eff.world S P) account token :
  submits_no_prices (get_offer_ids w account token).
Proof.
  apply quiet_bind; [apply quiet_call; tauto|]. intros ids. apply quiet_alloc.
Qed.

Lemma quiet_download_stock (w : Eff.world S P) : submits_no_prices (download_stock w).
Proof. apply quiet_call. tauto. Qed.

Lemma quiet_update_stocks (w : Eff.world S P) stocks account token :
  submits_no_prices (update_stocks w stocks account token).
Proof. apply quiet_call. tauto. Qed.

End Quiet.

Lemma quiet_market_create_stocks (w : Market.world) rows l warehouse_id :
  submits_no_prices (Market.create_stocks w rows l warehouse_id).
Proof. apply quiet_same_log. intros st. by rewrite market_create_stocks_run. Qed.

Lemma quiet_market_main_except e : submits_no_prices (Market.main_except e).
Proof. destruct e; apply quiet_print. Qed.

Lemma quiet_market_main_try (w : Market.world) rows t fbs dbs wfbs wdbs :
  submits_no_prices (Market.main_try w rows t fbs dbs wfbs wdbs).
Proof.
  unfold Market.main_try.
  repeat first
    [ apply quiet_ret
    | apply quiet_lift
    | apply quiet_get_offer_ids
    | apply quiet_market_create_stocks
    | apply quiet_update_stocks
    | apply quiet_for_each; intros ?
    | apply quiet_bind; [|intros ?] ].
Qed.

(** C3 fails on the code: whatever the world answers, [main] of market.py
    adds no submission of prices to the trace; the coroutines that
    [upload_prices] returns are never run. *)
Theorem market_main_submits_no_prices (w : Market.world) :
  submits_no_prices (Market.main w).
Proof.
  unfold Market.main.
  repeat (apply quiet_bind; [apply quiet_env_str|intros ?]).
  apply quiet_bind; [apply quiet_download_stock|intros rows].
  apply quiet_try_except; [apply quiet_market_main_try|apply quiet_market_main_except].
Qed.

(** The trace of market.py on the scenario: the feed, then for each account
    the listing and one batch of stocks; the two rows that match an offer
    have prices, yet no price is submitted. *)
Example market_main_scenario :
  log (Market.main (Sample.world_of Sample.rows Sample.ids) Sample.start).2
  = [ DownloadStock;
      FetchOfferIds "x" "x";
      SubmitStocks (map (uncurry (market_stock "x" "2024-01-01T00:00:00Z"))
                        [("1", 5); ("2", 100); ("3", 0)]) "x" "x";
      FetchOfferIds "x" "x";
      SubmitStocks (map (uncurry (market_stock "x" "2024-01-01T00:00:00Z"))
                        [("1", 5); ("2", 100); ("3", 0)]) "x" "x" ]
  ∧ ∃ p1 p2, (Market.create_prices Sample.rows 0%nat (Sample.state_of Sample.ids)).1
             = Ok [p1; p2].
Proof. split; [by vm_compute|]. do 2 eexists. by vm_compute. Qed.

(** ** The offer ids that seller.py prices *)

Lemma scan_rest_unmatched rows ids ms :
  NoDup ids → (scan rows ids).1 = Ok ms → (scan rows ids).2 = unmatched rows ids.
Proof.
  intros Hnd Hms.
  assert (filter (λ id, id ∉ []) ids = ids) as Hids.
  { apply filter_all, Forall_forall. intros id _. apply not_elem_of_nil. }
  rewrite <- Hids in Hms.
  destruct (scan_order rows [] ids ms Hnd Hms) as [_ Hrest].
  rewrite Hids in Hrest. by rewrite Hrest, unmatched_alt.
Qed.

Lemma matching_unmatched rows ids : matching rows (unmatched rows ids) = [].
Proof.
  destruct (matching rows (unmatched rows ids)) as [|watch k] eqn:E; [done|].
  assert (watch ∈ matching rows (unmatched rows ids)) as Hw by (rewrite E; by left).
  apply matching_elem_of in Hw as [Hc Hw].
  apply list_elem_of_filter in Hc as [Hc _].
  destruct Hc. apply list_elem_of_fmap. by exists watch.
Qed.

Lemma run_submit_stocks {S P} (w : Eff.world S P) batches account token
    (st : Eff.state S P) :
  ∃ r events,
    for_each batches (λ some_stock, update_stocks w some_stock account token) st
    = (r, {| heap := heap st; log := log st ++ events |})
    ∧ Forall (λ e, ¬ submits_prices e) events.
Proof.
  revert st. induction batches as [|b batches IH]; intros st; simpl.
  - exists (Ok tt), []. rewrite app_nil_r. by destruct st.
  - rewrite run_bind. unfold update_stocks at 1, call at 1.
    destruct (stocks_reply w (log st) b account token) as [[]|e].
    + destruct (IH {| heap := heap st; log := log st ++ [SubmitStocks b account token] |})
        as (r & events & -> & Hev).
      exists r, (SubmitStocks b account token :: events). simpl.
      rewrite <- app_assoc. split; [done|]. constructor; [tauto|done].
    + exists (Raise e), [SubmitStocks b account token]. split; [done|].
      constructor; [tauto|done].
Qed.

(** Closes a branch in which the run has stopped: the events it added are
    read off the trace, and none of them submits prices. *)
Ltac stopped :=
  eexists; simpl; rewrite <- ?app_assoc;
  split; [reflexivity|repeat constructor; tauto].

Lemma quiet_seller_main_try (w : Seller.world) client_id seller_token :
  distinct_offer_ids w →
  submits_no_prices (Seller.main_try w client_id seller_token).
Proof.
  intros Hdistinct st. unfold Seller.main_try.
  rewrite run_bind. unfold get_offer_ids at 1. rewrite run_bind. unfold call at 1.
  destruct (offer_ids_of w (log st) client_id seller_token) as [ids|e] eqn:Hids.
  2:{ stopped. }
  apply Hdistinct in Hids. unfold alloc at 1. cbn [heap log].
  rewrite run_bind. unfold download_stock at 1, call at 1. cbn [heap log].
  destruct (feed w _) as [rows|e].
  2:{ stopped. }
  rewrite run_bind, seller_create_stocks_run. cbn [heap log].
  rewrite list_lookup_total_middle by done.
  destruct (outcome rows ids) as [records|e] eqn:Hout; cbn [bind].
  2:{ stopped. }
  apply outcome_inv in Hout as (ms & Hms & _).
  rewrite (scan_rest_unmatched _ _ _ Hids Hms).
  rewrite run_bind. unfold lift at 1.
  destruct (Seller.divide _ 100) as [batches|e].
  2:{ stopped. }
  rewrite run_bind.
  match goal with |- context [for_each batches _ ?s] =>
    destruct (run_submit_stocks w batches client_id seller_token s)
      as (r & events & -> & Hev) end.
  exists ([FetchOfferIds client_id seller_token; DownloadStock] ++ events).
  split; [|by repeat (constructor; [tauto|])].
  destruct r as [[]|e]; cbn [heap log set_list].
  2:{ by rewrite <- !app_assoc. }
  rewrite run_bind, seller_create_prices_run. cbn [heap log].
  rewrite list_lookup_total_insert_eq by (rewrite length_app; simpl; lia).
  rewrite matching_unmatched. cbn [collect].
  by rewrite <- !app_assoc.
Qed.

Lemma quiet_seller_main_except e : submits_no_prices (Seller.main_except e).
Proof. destruct e; apply quiet_print. Qed.

(** C2 fails on the code: [main] of seller.py hands [create_prices] the
    list object that [create_stocks] has emptied of every matched id, so
    with distinct offer ids it never submits a price; on the scenario its
    trace ends with the batch of stocks, although the two matched rows
    have prices for the offer ids that were fetched. *)
Theorem seller_main_prices_leftover_ids :
  (∀ w : Seller.world, distinct_offer_ids w → submits_no_prices (Seller.main w))
  ∧ Seller.main (Sample.world_of Sample.rows Sample.ids) Sample.start
    = (Ok tt,
       {| heap := [["3"]];
          log := [ FetchOfferIds "x" "x";
                   DownloadStock;
                   SubmitStocks [seller_stock "1" 5; seller_stock "2" 100;
                                 seller_stock "3" 0] "x" "x" ] |})
  ∧ ∃ p1 p2, (Seller.create_prices Sample.rows 0%nat (Sample.state_of Sample.ids)).1
             = Ok [p1; p2].
Proof.
  split_and!.
  - intros w Hw. unfold Seller.main.
    repeat (apply quiet_bind; [apply quiet_env_str|intros ?]).
    apply quiet_try_except; [by apply quiet_seller_main_try|].
    apply quiet_seller_main_except.
  - by vm_compute.
  - do 2 eexists. by vm_compute.
Qed.

(** * Further properties of the code *)

Import Further.

(** ** Batcher: sizes that are not positive, and the number of batches *)

Lemma range_down_from_zero fuel stop step :
  (0 ≤ stop)%Z → range_down fuel 0 stop step = [].
Proof.
  intros Hstop. destruct fuel as [|fuel]; simpl; [done|].
  by destruct (Z.ltb_spec stop 0); [lia|].
Qed.

(** X1: a batch size of 0 makes [divide] raise [ValueError], whatever the
    list; a negative batch size makes it return no batch at all, so the
    elements of the list are in none. *)
Theorem divide_without_positive_size {A : Type} (L : list A) :
  Seller.divide L 0 = Raise ValueError
  ∧ (∀ N, N < 0 → Seller.divide L N = Ok []).
Proof.
  split; [done|]. intros N HN. unfold Seller.divide, range.
  destruct (Z.eqb_spec N 0); [lia|]. destruct (Z.ltb_spec N 0); [|lia].
  simpl. rewrite range_down_from_zero by lia. done.
Qed.

Section DivideCount.
Context {A : Type} (lst : list A) (k : nat).
Hypothesis k_pos : (0 < k)%nat.

Lemma chunks_from_bounded fuel j :
  Forall (λ c, (1 ≤ length c ≤ k)%nat) (Loop.chunks_from lst k fuel j).
Proof.
  revert j. induction fuel as [|fuel IH]; intros j; [constructor|].
  rewrite chunks_from_step by done. case_decide; [|constructor].
  constructor; [|apply IH].
  rewrite length_take, length_drop. lia.
Qed.

Lemma chunks_from_length fuel j :
  (length lst - j ≤ fuel)%nat →
  Z.of_nat (length (Loop.chunks_from lst k fuel j))
  = (Z.of_nat (length lst - j) + Z.of_nat k - 1) / Z.of_nat k.
Proof.
  revert j. induction fuel as [|fuel IH]; intros j Hfuel.
  - replace (length lst - j)%nat with 0%nat by lia. simpl.
    symmetry. apply Z.div_small. lia.
  - rewrite chunks_from_step by done. case_decide.
    + cbn [length]. rewrite Nat2Z.inj_succ, IH by lia.
      destruct (decide (j + k ≤ length lst)%nat).
      * replace (Z.of_nat (length lst - j) + Z.of_nat k - 1)
          with (1 * Z.of_nat k + (Z.of_nat (length lst - (j + k)) + Z.of_nat k - 1))
          by lia.
        rewrite Z.div_add_l by lia. lia.
      * replace (length lst - (j + k))%nat with 0%nat by lia.
        rewrite (Z.div_small (Z.of_nat 0 + Z.of_nat k - 1)) by lia.
        change (Z.succ 0) with 1.
        apply (Z.div_unique _ _ 1 (Z.of_nat (length lst - j) - 1)); lia.
    + replace (length lst - j)%nat with 0%nat by lia. simpl.
      symmetry. apply Z.div_small. lia.
Qed.

End DivideCount.

Lemma divide_chunks_from {A} (L : list A) (N : Z) :
  0 < N →
  Seller.divide L N = Ok (Loop.chunks_from L (Z.to_nat N) (length L) 0).
Proof.
  intros HN. unfold Seller.divide, range.
  destruct (Z.eqb_spec N 0); [lia|]. destruct (Z.ltb_spec N 0); [lia|].
  simpl. unfold Loop.chunks_from.
  replace (Z.of_nat (Z.to_nat N)) with N by lia.
  by replace (Z.to_nat (Z.of_nat (length L) - 0)) with (length L) by lia.
Qed.

(** X2: for a positive [N], [divide L N] makes as many batches as [N]
    goes into the length of [L], rounded up, and every batch holds at
    least one and at most [N] elements. *)
Theorem divide_count_and_bounds {A : Type} (L : list A) (N : Z) :
  0 < N →
  ∃ chunks, Seller.divide L N = Ok chunks
    ∧ Z.of_nat (length chunks) = (Z.of_nat (length L) + N - 1) / N
    ∧ Forall (λ c, (1 ≤ Z.of_nat (length c) ≤ N)%Z) chunks.
Proof.
  intros HN. rewrite divide_chunks_from by done. eexists. split; [done|].
  assert (Hk : (0 < Z.to_nat N)%nat) by lia. split.
  - rewrite (chunks_from_length L _ Hk) by lia.
    replace (length L - 0)%nat with (length L) by lia.
    by replace (Z.of_nat (Z.to_nat N)) with N by lia.
  - eapply Forall_impl; [apply (chunks_from_bounded L _ Hk)|].
    simpl. intros c Hc. lia.
Qed.

(** Seven elements in batches of three. *)
Lemma divide_count_and_bounds_witness :
  ∃ chunks, Seller.divide [1; 2; 3; 4; 5; 6; 7] 3 = Ok chunks
    ∧ Z.of_nat (length chunks) = (Z.of_nat (length [1; 2; 3; 4; 5; 6; 7]) + 3 - 1) / 3
    ∧ Forall (λ c, (1 ≤ Z.of_nat (length c) ≤ 3)%Z) chunks.
Proof. apply (divide_count_and_bounds [1; 2; 3; 4; 5; 6; 7] 3). lia. Defined.

(** ** Price normaliser: what follows the first dot, and normalising twice *)

Lemma append_cons c s t : String c s +:+ t = String c (s +:+ t).
Proof. reflexivity. Qed.

Lemma truncate_at_dot_append s t :
  truncate_at_dot (s +:+ "." +:+ t) = truncate_at_dot s.
Proof.
  induction s as [|c s IH]; [done|].
  rewrite append_cons. simpl. by rewrite IH.
Qed.

Lemma truncate_at_dot_digits s : all_digits s = true → truncate_at_dot s = s.
Proof.
  induction s as [|c s IH]; simpl; [done|].
  intros [Hc Hs]%andb_true_iff. rewrite (IH Hs).
  destruct (Ascii.eqb_spec c "."); [|done]. subst c. by vm_compute in Hc.
Qed.

Lemma digits_only_digits s : all_digits s = true → digits_only s = s.
Proof.
  induction s as [|c s IH]; simpl; [done|].
  intros [Hc Hs]%andb_true_iff. by rewrite Hc, (IH Hs).
Qed.

(** X3: what follows the first ['.'] of a price never matters to
    [price_conversion], and a price that is already normalised is left as
    it is. *)
Theorem price_conversion_drops_after_dot (s t : string) :
  Seller.price_conversion (s +:+ "." +:+ t) = Seller.price_conversion s
  ∧ Seller.price_conversion (Seller.price_conversion s) = Seller.price_conversion s.
Proof.
  split.
  - destruct (price_conversion_digits (s +:+ "." +:+ t)) as [-> _].
    destruct (price_conversion_digits s) as [-> _].
    by rewrite truncate_at_dot_append.
  - destruct (price_conversion_digits s) as [Hs Hd].
    destruct (price_conversion_digits (Seller.price_conversion s)) as [-> _].
    by rewrite (truncate_at_dot_digits _ Hd), (digits_only_digits _ Hd).
Qed.

(** ** Price builder of market.py: the values are not negative *)

Lemma digit_value_nonneg c : is_digit c = true → (0 ≤ digit_value c)%Z.
Proof. destruct c as [[] [] [] [] [] [] [] []]; by vm_compute. Qed.

Lemma digits_value_nonneg acc us s z :
  (0 ≤ acc)%Z → digits_value acc us s = Some z → (0 ≤ z)%Z.
Proof.
  revert acc us. induction s as [|c s IH]; intros acc us Hacc; simpl.
  - destruct us; [done|]. by intros [= <-].
  - destruct (is_digit c) eqn:Hc.
    + apply IH. pose proof (digit_value_nonneg c Hc). lia.
    + destruct (Ascii.eqb c "_" && negb us); [by apply IH|done].
Qed.

Lemma unsigned_value_nonneg s z : unsigned_value s = Some z → (0 ≤ z)%Z.
Proof.
  destruct s as [|c s]; simpl; [done|].
  destruct (is_digit c) eqn:Hc; [|done].
  apply digits_value_nonneg. by apply digit_value_nonneg.
Qed.

Lemma literal_value_digits_nonneg s z :
  all_digits s = true → literal_value s = Some z → (0 ≤ z)%Z.
Proof.
  intros Hs. unfold literal_value. rewrite (strip_digits s Hs).
  destruct s as [|c s]; [done|].
  assert (is_digit c = true) as Hc by (simpl in Hs; by apply andb_true_iff in Hs as [? _]).
  intros Hz. apply (unsigned_value_nonneg (String c s)). revert Hz.
  destruct c as [[] [] [] [] [] [] [] []]; try done; by vm_compute in Hc.
Qed.

Lemma int_of_str_digits_nonneg s z :
  all_digits s = true → int_of_str s = Some z → (0 ≤ z)%Z.
Proof.
  intros Hs. rewrite (int_of_str_digits_eq s Hs).
  destruct (digit_count s <=? max_str_digits)%Z; [|done].
  by apply literal_value_digits_nonneg.
Qed.

(** X4: no price record that [create_prices] of market.py returns has a
    negative value; a sign in the price text is dropped with the other
    characters that are no digit. *)
Theorem market_create_prices_values_nonneg
    (rows : list row) (l : loc) (mst mst' : Market.state) (prices : list Market.Price.t) :
  Market.create_prices rows l mst = (Ok prices, mst') →
  Forall (λ p, (0 ≤ Market.Value.value (Market.Price.price p))%Z) prices.
Proof.
  rewrite market_create_prices_run. intros [= Hc _]. apply collect_ok in Hc.
  apply Forall_forall. intros p Hp.
  destruct (Forall2_elem_of_r _ _ _ _ Hc Hp) as (watch & _ & Hw).
  apply market_price_priced in Hw as (s & z & _ & Hz & ->). simpl.
  destruct (price_conversion_digits s) as [_ Hd].
  by apply (int_of_str_digits_nonneg _ _ Hd).
Qed.

(** A price written with a minus sign. *)
Lemma market_create_prices_values_nonneg_witness :
  Forall (λ p, (0 ≤ Market.Value.value (Market.Price.price p))%Z)
         [ {| Market.Price.id := "1";
              Market.Price.price := {| Market.Value.value := 250;
                                       Market.Value.currencyId := "RUR" |} |} ].
Proof.
  apply (market_create_prices_values_nonneg
           [Sample.watch "1" "5" "-250.00 руб."] 0%nat
           (Sample.state_of ["1"]) (Sample.state_of ["1"])).
  by vm_compute.
Defined.

(** ** Stock builder: what it does to the state, and repeated offer ids *)

Lemma remove_sublist x l l' : remove x l = Ok l' → l' `sublist_of` l.
Proof.
  revert l'. induction l as [|y l IH]; intros l'; simpl; [done|].
  case_decide.
  - intros [= <-]. by apply sublist_cons.
  - destruct (remove x l) as [r|] eqn:Hr; simpl; [|done].
    intros [= <-]. apply sublist_skip. by apply IH.
Qed.

Lemma scan_sublist rows ids : (scan rows ids).2 `sublist_of` ids.
Proof.
  revert ids. induction rows as [|watch rows IH]; intros ids; simpl; [done|].
  destruct (contains (code watch) ids); [|apply IH].
  destruct (count_of _); [|done].
  destruct (remove (code watch) ids) as [ids'|] eqn:Hrm; [|done].
  specialize (IH ids'). destruct (scan rows ids') as [found rest]. simpl in *.
  etrans; [exact IH|]. by eapply remove_sublist.
Qed.

Lemma set_list_only_shrinks {S P} l v (st : Eff.state S P) :
  v `sublist_of` heap st !!! l → only_shrinks l st (set_list l v st).
Proof.
  intros Hv. unfold only_shrinks, set_list. simpl. split_and!.
  - done.
  - apply length_insert.
  - intros l' Hl'. by apply list_lookup_insert_ne.
  - destruct (decide (l < length (heap st))%nat).
    + by rewrite list_lookup_total_insert_eq.
    + by rewrite list_insert_ge by lia.
Qed.

(** X5: whether it returns or raises, [create_stocks] of either
    marketplace changes nothing but the list of offer ids it is given, and
    that list only loses elements; the trace and the other lists are
    untouched. *)
Theorem create_stocks_only_shrinks_offer_ids
    (w : Market.world) (rows : list row) (l : loc) (warehouse_id : string)
    (st : Seller.state) (mst : Market.state) :
  only_shrinks l st (Seller.create_stocks rows l st).2
  ∧ only_shrinks l mst (Market.create_stocks w rows l warehouse_id mst).2.
Proof.
  rewrite seller_create_stocks_run, market_create_stocks_run.
  split; apply (set_list_only_shrinks l); apply scan_sublist.
Qed.

(** An inventory with a quantity that is no number: the first row is
    consumed, the second makes the builder raise. *)
Example create_stocks_raises_midway :
  Seller.create_stocks [Sample.watch "1" "5" "10"; Sample.watch "2" "many" "20"]
    0%nat (Sample.state_of ["1"; "2"; "3"])
  = (Raise ValueError, Sample.state_of ["2"; "3"]).
Proof. by vm_compute. Qed.

Lemma map_offer_id_seller records :
  map Seller.Stock.offer_id (map (uncurry seller_stock) records) = map fst records.
Proof. rewrite map_map. apply map_ext. by intros []. Qed.

Lemma map_sku_market warehouse_id date records :
  map Market.Stock.sku (map (uncurry (market_stock warehouse_id date)) records)
  = map fst records.
Proof. rewrite map_map. apply map_ext. by intros []. Qed.

(** X6: also when offer ids repeat, the offer ids of the records that
    [create_stocks] of either marketplace returns are the offer ids it
    was given, in another order: an id listed [k] times gets [k] records. *)
Theorem create_stocks_permutes_offer_ids
    (w : Market.world) (rows : list row) (l : loc) (warehouse_id : string)
    (st : Seller.state) (mst : Market.state) :
  (∀ stocks st', Seller.create_stocks rows l st = (Ok stocks, st') →
     map Seller.Stock.offer_id stocks ≡ₚ heap st !!! l)
  ∧ (∀ stocks mst', Market.create_stocks w rows l warehouse_id mst = (Ok stocks, mst') →
     map Market.Stock.sku stocks ≡ₚ heap mst !!! l).
Proof.
  split.
  - intros stocks st' (records & Hout & ->)%seller_create_stocks_ok.
    rewrite map_offer_id_seller. apply (outcome_perm _ _ _ Hout).
  - intros stocks st' (records & Hout & ->)%market_create_stocks_ok.
    rewrite map_sku_market. apply (outcome_perm _ _ _ Hout).
Qed.

(** An offer id listed twice and matched by one row gets the record of the
    row and a record of count 0. *)
Example create_stocks_repeated_offer_id :
  (Seller.create_stocks [Sample.watch "1" "5" "10"] 0%nat (Sample.state_of ["1"; "1"])).1
  = Ok [seller_stock "1" 5; seller_stock "1" 0].
Proof. by vm_compute. Qed.

(** ** Entry points: the sizes of the batches they submit *)

Section Emits.
Context {S P : Type} (Q : event S P → Prop).
Implicit Types st : Eff.state S P.

Lemma emits_same_log {A} (m : Eff.M S P A) :
  (∀ st, log (m st).2 = log st) → emits_only Q m.
Proof. intros Hm st. exists []. by rewrite Hm, app_nil_r. Qed.

Lemma emits_ret {A} (a : A) : emits_only Q (mret a : Eff.M S P A).
Proof. by apply emits_same_log. Qed.

Lemma emits_bind {A B} (m : Eff.M S P A) (k : A → Eff.M S P B) :
  emits_only Q m → (∀ a, emits_only Q (k a)) → emits_only Q (m ≫= k).
Proof.
  intros Hm Hk st. rewrite run_bind.
  destruct (Hm st) as (ev1 & Hlog1 & Hev1).
  destruct (m st) as [[a|e] st1]; simpl in *.
  - destruct (Hk a st1) as (ev2 & Hlog2 & Hev2).
    exists (ev1 ++ ev2). rewrite Hlog2, Hlog1, app_assoc.
    split; [done|]. by apply Forall_app.
  - by exists ev1.
Qed.

(** The continuation of an expression only runs on what it returned. *)
Lemma emits_bind_lift {A B} (r : result A) (k : A → Eff.M S P B) :
  (∀ a, r = Ok a → emits_only Q (k a)) → emits_only Q (lift r ≫= k).
Proof.
  intros Hk st. rewrite run_bind. unfold lift.
  destruct r as [a|e]; [by apply Hk|]. exists []. by rewrite app_nil_r.
Qed.

Lemma emits_try_except {A} (body : Eff.M S P A) (handler : exn → Eff.M S P A) :
  emits_only Q body → (∀ e, emits_only Q (handler e)) →
  emits_only Q (try_except body handler).
Proof.
  intros Hm Hk st. unfold try_except.
  destruct (Hm st) as (ev1 & Hlog1 & Hev1).
  destruct (body st) as [[a|e] st1]; simpl in *.
  - by exists ev1.
  - destruct (Hk e st1) as (ev2 & Hlog2 & Hev2).
    exists (ev1 ++ ev2). rewrite Hlog2, Hlog1, app_assoc.
    split; [done|]. by apply Forall_app.
Qed.

Lemma emits_for_each {A} (l : list A) (body : A → Eff.M S P unit) :
  Forall (λ x, emits_only Q (body x)) l → emits_only Q (for_each l body).
Proof.
  induction 1 as [|x l Hx _ IH]; simpl; [apply emits_ret|].
  apply emits_bind; [done|]. by intros _.
Qed.

Lemma emits_call {A} (e : event S P) (outcome : list (event S P) → result A) :
  Q e → emits_only Q (call e outcome).
Proof. intros He st. exists [e]. split; [done|]. by constructor. Qed.

Lemma emits_get_offer_ids (w : Eff.world S P) account token :
  Q (FetchOfferIds account token) → emits_only Q (get_offer_ids w account token).
Proof.
  intros HQ. apply emits_bind; [by apply emits_call|].
  intros ids. by apply emits_same_log.
Qed.

Lemma emits_env_str (w : Eff.world S P) name : emits_only Q (env_str w name).
Proof. by apply emits_same_log. Qed.

Lemma emits_download_stock (w : Eff.world S P) :
  Q DownloadStock → emits_only Q (download_stock w).
Proof. apply emits_call. Qed.

Lemma emits_update_stocks (w : Eff.world S P) stocks account token :
  Q (SubmitStocks stocks account token) →
  emits_only Q (update_stocks w stocks account token).
Proof. apply emits_call. Qed.

Lemma emits_update_price (w : Eff.world S P) prices account token :
  Q (SubmitPrices prices account token) →
  emits_only Q (update_price w prices account token).
Proof. apply emits_call. Qed.

Lemma emits_print error text :
  Q (Print error text) → emits_only Q (print error text : Eff.M S P unit).
Proof. intros HQ st. exists [Print error text]. split; [done|]. by constructor. Qed.

End Emits.

Lemma divide_bounded {A} (L : list A) (n : nat) batches :
  (0 < n)%nat → Seller.divide L (Z.of_nat n) = Ok batches →
  Forall (λ b, (1 ≤ length b ≤ n)%nat) batches.
Proof.
  intros Hn. rewrite divide_chunks_from by lia. intros [= <-].
  rewrite Nat2Z.id. by apply chunks_from_bounded.
Qed.

Lemma emits_seller_main_try (w : Seller.world) client_id seller_token :
  emits_only (batch_within 100 900) (Seller.main_try w client_id seller_token).
Proof.
  unfold Seller.main_try.
  apply emits_bind; [by apply emits_get_offer_ids|intros offer_ids].
  apply emits_bind; [by apply emits_download_stock|intros rows].
  apply emits_bind.
  { apply emits_same_log. intros st. by rewrite seller_create_stocks_run. }
  intros stocks. apply emits_bind_lift. intros batches Hb.
  apply (divide_bounded stocks 100) in Hb; [|lia].
  apply emits_bind.
  { apply emits_for_each. eapply Forall_impl; [exact Hb|].
    intros b Hlen. by apply emits_update_stocks. }
  intros _. apply emits_bind.
  { apply emits_same_log. intros st. by rewrite seller_create_prices_run. }
  intros prices. apply emits_bind_lift. intros pbatches Hp.
  apply (divide_bounded prices 900) in Hp; [|lia].
  apply emits_for_each. eapply Forall_impl; [exact Hp|].
  intros b Hlen. by apply emits_update_price.
Qed.

(** X7: whatever the world answers, every batch of stocks that [main] of
    seller.py submits holds between 1 and 100 records, and every batch of
    prices between 1 and 900. *)
Theorem seller_main_batches_within_limits (w : Seller.world) :
  emits_only (batch_within 100 900) (Seller.main w).
Proof.
  unfold Seller.main.
  repeat (apply emits_bind; [apply emits_env_str|intros ?]).
  apply emits_try_except; [apply emits_seller_main_try|].
  intros e. destruct e; by apply emits_print.
Qed.

Lemma emits_market_stocks_pass (w : Market.world) rows campaign_id market_token
    warehouse_id (k : Market.M unit) :
  emits_only (stock_batch_within 2000) k →
  emits_only (stock_batch_within 2000)
    (offer_ids ← get_offer_ids w campaign_id market_token;
     stocks ← Market.create_stocks w rows offer_ids warehouse_id;
     batches ← lift (Market.divide stocks 2000);
     for_each batches (λ some_stock, update_stocks w some_stock campaign_id market_token);;
     _ ← Market.upload_prices w rows campaign_id market_token;
     k).
Proof.
  intros Hk.
  apply emits_bind; [by apply emits_get_offer_ids|intros offer_ids].
  apply emits_bind.
  { apply emits_same_log. intros st. by rewrite market_create_stocks_run. }
  intros stocks. apply emits_bind_lift. intros batches Hb.
  apply (divide_bounded stocks 2000) in Hb; [|lia].
  apply emits_bind.
  { apply emits_for_each. eapply Forall_impl; [exact Hb|].
    intros b Hlen. by apply emits_update_stocks. }
  intros _. apply emits_bind; [apply emits_ret|]. by intros _.
Qed.

(** X8: whatever the world answers, every batch of stocks that [main] of
    market.py submits, for either campaign, holds between 1 and 2000
    records. *)
Theorem market_main_stock_batches_within_limit (w : Market.world) :
  emits_only (stock_batch_within 2000) (Market.main w).
Proof.
  unfold Market.main.
  repeat (apply emits_bind; [apply emits_env_str|intros ?]).
  apply emits_bind; [by apply emits_download_stock|intros rows].
  apply emits_try_except.
  - unfold Market.main_try.
    apply emits_market_stocks_pass, emits_market_stocks_pass, emits_ret.
  - intros e. destruct e; by apply emits_print.
Qed.

(** ** The upload coroutines, when they are awaited *)

Section SubmitAll.
Context {S P : Type} (w : Eff.world S P) (account token : string).
Implicit Types st : Eff.state S P.

Lemma run_submit_all_stocks batches st :
  (∀ trace batch, stocks_reply w trace batch account token = Ok tt) →
  for_each batches (λ some_stock, update_stocks w some_stock account token) st
  = (Ok tt, {| heap := heap st;
               log := log st ++ map (λ b, SubmitStocks b account token) batches |}).
Proof.
  intros Hok. revert st. induction batches as [|b batches IH]; intros st; simpl.
  - rewrite run_ret, app_nil_r. by destruct st.
  - rewrite run_bind. unfold update_stocks at 1, call at 1. rewrite Hok, IH. simpl.
    by rewrite <- app_assoc.
Qed.

Lemma run_submit_all_prices batches st :
  (∀ trace batch, prices_reply w trace batch account token = Ok tt) →
  for_each batches (λ some_price, update_price w some_price account token) st
  = (Ok tt, {| heap := heap st;
               log := log st ++ map (λ b, SubmitPrices b account token) batches |}).
Proof.
  intros Hok. revert st. induction batches as [|b batches IH]; intros st; simpl.
  - rewrite run_ret, app_nil_r. by destruct st.
  - rewrite run_bind. unfold update_price at 1, call at 1. rewrite Hok, IH. simpl.
    by rewrite <- app_assoc.
Qed.

Lemma run_get_offer_ids ids st :
  offer_ids_of w (log st) account token = Ok ids →
  get_offer_ids w account token st
  = (Ok (length (heap st)),
     {| heap := heap st ++ [ids]; log := log st ++ [FetchOfferIds account token] |}).
Proof. intros Hids. unfold get_offer_ids. rewrite run_bind. unfold call. by rewrite Hids. Qed.

Lemma run_get_offer_ids_raise e st :
  offer_ids_of w (log st) account token = Raise e →
  ∃ st', get_offer_ids w account token st = (Raise e, st').
Proof.
  intros Hids. unfold get_offer_ids. rewrite run_bind. unfold call. rewrite Hids.
  by eexists.
Qed.

Lemma submit_all_stocks_inv batches st st' :
  for_each batches (λ some_stock, update_stocks w some_stock account token) st
  = (Ok tt, st') →
  st' = {| heap := heap st;
           log := log st ++ map (λ b, SubmitStocks b account token) batches |}.
Proof.
  revert st. induction batches as [|b batches IH]; intros st; simpl.
  - rewrite run_ret, app_nil_r. intros [= <-]. by destruct st.
  - rewrite run_bind. unfold update_stocks at 1, call at 1.
    destruct (stocks_reply w (log st) b account token) as [[]|e]; [|done].
    intros ->%IH. simpl. by rewrite <- app_assoc.
Qed.

Lemma submit_all_prices_inv batches st st' :
  for_each batches (λ some_price, update_price w some_price account token) st
  = (Ok tt, st') →
  st' = {| heap := heap st;
           log := log st ++ map (λ b, SubmitPrices b account token) batches |}.
Proof.
  revert st. induction batches as [|b batches IH]; intros st; simpl.
  - rewrite run_ret, app_nil_r. intros [= <-]. by destruct st.
  - rewrite run_bind. unfold update_price at 1, call at 1.
    destruct (prices_reply w (log st) b account token) as [[]|e]; [|done].
    intros ->%IH. simpl. by rewrite <- app_assoc.
Qed.

End SubmitAll.

Lemma divide_concat {A} (L : list A) (n : nat) batches :
  (0 < n)%nat → Seller.divide L (Z.of_nat n) = Ok batches → concat batches = L.
Proof.
  intros Hn. rewrite divide_chunks_from by lia. intros [= <-].
  rewrite Nat2Z.id. by rewrite (concat_chunks_from L n Hn) by lia.
Qed.

Lemma divide_returns {A} (L : list A) (n : nat) :
  (0 < n)%nat → ∃ batches, Seller.divide L (Z.of_nat n) = Ok batches.
Proof. intros Hn. rewrite divide_chunks_from by lia. by eexists. Qed.

(** What the awaited coroutine of [upload_prices] returns, for a price
    builder that runs as [collect f] on the matching rows. *)
Section AwaitedPrices.
Context {S P : Type} (w : Eff.world S P) (rows : list row) (account token : string).
Context (create_prices : list row → loc → Eff.M S P (list P)) (f : row → result P).
Context (size : nat).
Hypothesis size_pos : (0 < size)%nat.
Hypothesis create_prices_run : ∀ l st,
  create_prices rows l st = (collect f (matching rows (heap st !!! l)), st).

Lemma awaited_prices_returns st ids :
  offer_ids_of w (log st) account token = Ok ids →
  Forall (λ watch, ∃ p, f watch = Ok p) (matching rows ids) →
  (∀ trace batch, prices_reply w trace batch account token = Ok tt) →
  ∃ prices st',
    (offer_ids ← get_offer_ids w account token;
     prices ← create_prices rows offer_ids;
     batches ← lift (Seller.divide prices (Z.of_nat size));
     for_each batches (λ some_price, update_price w some_price account token);;
     mret prices) st
    = (Ok prices, st').
Proof.
  intros Hids Hf Hok. destruct (collect_total f _ Hf) as [prices Hprices].
  destruct (divide_returns prices size size_pos) as [batches Hb].
  exists prices. eexists.
  rewrite run_bind, (run_get_offer_ids w account token ids st Hids).
  rewrite run_bind, create_prices_run. cbn [heap log].
  rewrite list_lookup_total_middle by done. rewrite Hprices.
  rewrite run_bind. unfold lift at 1. rewrite Hb.
  rewrite run_bind, run_submit_all_prices by done. by rewrite run_ret.
Qed.

Lemma awaited_prices_returned st prices st' :
  (offer_ids ← get_offer_ids w account token;
     prices ← create_prices rows offer_ids;
     batches ← lift (Seller.divide prices (Z.of_nat size));
     for_each batches (λ some_price, update_price w some_price account token);;
     mret prices) st
  = (Ok prices, st') →
  ∃ ids batches,
    offer_ids_of w (log st) account token = Ok ids
    ∧ st' = {| heap := heap st ++ [ids];
               log := log st ++ FetchOfferIds account token
                                :: map (λ b, SubmitPrices b account token) batches |}
    ∧ Forall2 (λ watch p, f watch = Ok p) (matching rows ids) prices
    ∧ concat batches = prices
    ∧ Forall (λ b, (1 ≤ length b ≤ size)%nat) batches.
Proof.
  rewrite run_bind.
  destruct (offer_ids_of w (log st) account token) as [ids|e] eqn:Hids.
  2:{ destruct (run_get_offer_ids_raise w account token e st Hids) as [st1 ->]. done. }
  rewrite (run_get_offer_ids w account token ids st Hids).
  rewrite run_bind, create_prices_run. cbn [heap log].
  rewrite list_lookup_total_middle by done.
  destruct (collect f (matching rows ids)) as [prices0|e] eqn:Hprices; [|done].
  destruct (divide_returns prices0 size size_pos) as [batches Hb].
  rewrite run_bind. unfold lift at 1. rewrite Hb. rewrite run_bind.
  match goal with |- context [for_each batches ?body ?st1] =>
    destruct (for_each batches body st1) as [[[]|e] st2] eqn:Hsub; [|done] end.
  rewrite run_ret. intros [= <- <-].
  apply submit_all_prices_inv in Hsub. cbn [heap log] in Hsub.
  exists ids, batches. split_and!; [done| |by apply collect_ok| |].
  - by rewrite Hsub, <- app_assoc.
  - by apply (divide_concat prices0 size).
  - by apply (divide_bounded prices0 size).
Qed.

End AwaitedPrices.

(** X9: the coroutine of [upload_prices], awaited. It returns when the
    listing of the offer ids succeeds, every submission of prices succeeds
    and the price of every row whose code is among the listed ids is a text
    (seller.py), or a text with 1 to 4300 digits before its first ['.']
    (market.py). Whenever it returns, it has listed the offer ids anew,
    returns one price record for each row whose code is among them, in the
    order of the rows, and has submitted these records, in order, in
    batches of at most 1000 (seller.py) or 500 (market.py). *)
Theorem upload_prices_awaited
    (sw : Seller.world) (mw : Market.world) (rows : list row)
    (account token : string) (st : Seller.state) (mst : Market.state) :
  ((∀ ids, offer_ids_of sw (log st) account token = Ok ids →
           Forall price_is_text (matching rows ids) →
           (∀ trace batch, prices_reply sw trace batch account token = Ok tt) →
           ∃ prices st',
             (Seller.upload_prices sw rows account token ≫= await) st = (Ok prices, st'))
   ∧ (∀ prices st',
        (Seller.upload_prices sw rows account token ≫= await) st = (Ok prices, st') →
        ∃ ids batches,
          offer_ids_of sw (log st) account token = Ok ids
          ∧ st' = {| heap := heap st ++ [ids];
                     log := log st ++ FetchOfferIds account token
                                      :: map (λ b, SubmitPrices b account token) batches |}
          ∧ Forall2 seller_priced (matching rows ids) prices
          ∧ concat batches = prices
          ∧ Forall (λ b, (1 ≤ length b ≤ 1000)%nat) batches))
  ∧ ((∀ mids, offer_ids_of mw (log mst) account token = Ok mids →
            Forall price_converts (matching rows mids) →
            (∀ trace batch, prices_reply mw trace batch account token = Ok tt) →
            ∃ prices mst',
              (Market.upload_prices mw rows account token ≫= await) mst = (Ok prices, mst'))
   ∧ (∀ prices mst',
        (Market.upload_prices mw rows account token ≫= await) mst = (Ok prices, mst') →
        ∃ mids batches,
          offer_ids_of mw (log mst) account token = Ok mids
          ∧ mst' = {| heap := heap mst ++ [mids];
                      log := log mst ++ FetchOfferIds account token
                                        :: map (λ b, SubmitPrices b account token) batches |}
          ∧ Forall2 market_priced (matching rows mids) prices
          ∧ concat batches = prices
          ∧ Forall (λ b, (1 ≤ length b ≤ 500)%nat) batches)).
Proof.
  assert (0 < 1000)%nat as H1000 by lia. assert (0 < 500)%nat as H500 by lia.
  split; split.
  - intros ids Hids Htext Hok.
    apply (awaited_prices_returns sw rows account token Seller.create_prices
             seller_price 1000 H1000 (seller_create_prices_run rows) st ids); [done| |done].
    eapply Forall_impl; [exact Htext|]. intros watch [s Hs].
    eexists. apply seller_price_priced. by exists s.
  - intros prices st' Hrun.
    destruct (awaited_prices_returned sw rows account token Seller.create_prices
                seller_price 1000 H1000 (seller_create_prices_run rows) st prices st' Hrun)
      as (ids & batches & Hids & -> & Hp & Hc & Hb).
    exists ids, batches. split_and!; [done..| |done|done].
    eapply Forall2_impl; [exact Hp|]. intros ??. apply seller_price_priced.
  - intros mids Hids Hconv Hok.
    apply (awaited_prices_returns mw rows account token Market.create_prices
             market_price 500 H500 (market_create_prices_run rows) mst mids); [done| |done].
    eapply Forall_impl; [exact Hconv|]. intros watch. apply price_converts_priced.
  - intros prices mst' Hrun.
    destruct (awaited_prices_returned mw rows account token Market.create_prices
                market_price 500 H500 (market_create_prices_run rows) mst prices mst' Hrun)
      as (mids & batches & Hids & -> & Hp & Hc & Hb).
    exists mids, batches. split_and!; [done..| |done|done].
    eapply Forall2_impl; [exact Hp|]. intros ??. apply market_price_priced.
Qed.

(** Both coroutines return on the scenario of the price builder. *)
Lemma upload_prices_awaited_witness :
  (∃ prices st',
      (Seller.upload_prices (Sample.world_of Sample.rows Sample.ids) Sample.rows "x" "x"
         ≫= await) Sample.start = (Ok prices, st'))
  ∧ (∃ prices mst',
      (Market.upload_prices (Sample.world_of Sample.rows Sample.ids) Sample.rows "x" "x"
         ≫= await) Sample.start = (Ok prices, mst')).
Proof.
  pose proof (upload_prices_awaited
                (Sample.world_of Sample.rows Sample.ids)
                (Sample.world_of Sample.rows Sample.ids)
                Sample.rows "x" "x" Sample.start Sample.start) as [[Hs _] [Hm _]].
  split; [apply (Hs Sample.ids)|apply (Hm Sample.ids)];
    try reflexivity;
    (assert (matching Sample.rows Sample.ids = Sample.rows) as -> by by vm_compute);
    repeat constructor; eexists; repeat split; by vm_compute.
Defined.

(** ** [upload_stocks], when it is awaited *)

Lemma outcome_nonzero_from_row rows ids records p :
  outcome rows ids = Ok records → p ∈ records → p.2 ≠ 0 →
  ∃ watch, watch ∈ rows ∧ code watch = p.1 ∧ resolves_to watch p.2.
Proof.
  intros (ms & Hms & ->)%outcome_inv Hp Hnz.
  apply elem_of_app in Hp as [Hp|Hp].
  - pose proof (scan_found _ _ _ Hms) as Hfound.
    rewrite Forall_forall in Hfound. by apply Hfound.
  - apply list_elem_of_fmap in Hp as (id & -> & _). done.
Qed.

(** X10: the coroutine of [upload_stocks] of seller.py, awaited. It returns
    when the listing of the offer ids succeeds, every submission of stocks
    succeeds and the quantity of every row whose code is among the listed
    ids is a sentinel or a value that [int] converts. Whenever it returns,
    it has listed the offer ids and submitted the stock records, in order,
    in batches of at most 100; the offer ids of the records are the listed
    ids, up to their order; and it returns the records together with those
    of them whose count is not 0, each of which has the code of an
    inventory row as its offer id. *)
Theorem seller_upload_stocks_awaited
    (w : Seller.world) (rows : list row) (client_id seller_token : string)
    (st : Seller.state) :
  (∀ ids, offer_ids_of w (log st) client_id seller_token = Ok ids →
          quantities_ok (matching rows ids) →
          (∀ trace batch, stocks_reply w trace batch client_id seller_token = Ok tt) →
          ∃ result st',
            (Seller.upload_stocks w rows client_id seller_token ≫= await) st
            = (Ok result, st'))
  ∧ (∀ not_empty stocks st',
       (Seller.upload_stocks w rows client_id seller_token ≫= await) st
       = (Ok (not_empty, stocks), st') →
       ∃ ids batches,
         offer_ids_of w (log st) client_id seller_token = Ok ids
         ∧ log st' = log st ++ FetchOfferIds client_id seller_token
                               :: map (λ b, SubmitStocks b client_id seller_token) batches
         ∧ concat batches = stocks
         ∧ Forall (λ b, (1 ≤ length b ≤ 100)%nat) batches
         ∧ map Seller.Stock.offer_id stocks ≡ₚ ids
         ∧ not_empty = filter (λ stock, Seller.Stock.stock stock ≠ 0) stocks
         ∧ (∀ stock, stock ∈ not_empty →
              ∃ watch, watch ∈ rows ∧ code watch = Seller.Stock.offer_id stock)).
Proof.
  split.
  - intros ids Hids Hq Hok.
    destruct (outcome_total rows ids Hq) as [records Hout].
    destruct (divide_returns (map (uncurry seller_stock) records) 100)
      as [batches Hb]; [lia|].
    do 2 eexists.
    rewrite run_bind. unfold Seller.upload_stocks, async_call. rewrite run_ret.
    unfold await. rewrite run_bind, (run_get_offer_ids w _ _ ids st Hids).
    rewrite run_bind, seller_create_stocks_run. cbn [heap log].
    rewrite list_lookup_total_middle by done. rewrite Hout. cbn [bind].
    rewrite run_bind. unfold lift at 1. change 100 with (Z.of_nat 100). rewrite Hb.
    rewrite run_bind, run_submit_all_stocks by done. by rewrite run_ret.
  - intros not_empty stocks st'.
    rewrite run_bind. unfold Seller.upload_stocks, async_call. rewrite run_ret.
    unfold await. rewrite run_bind.
    destruct (offer_ids_of w (log st) client_id seller_token) as [ids|e] eqn:Hids.
    2:{ destruct (run_get_offer_ids_raise w _ _ e st Hids) as [st1 ->]. done. }
    rewrite (run_get_offer_ids w _ _ ids st Hids).
    rewrite run_bind, seller_create_stocks_run. cbn [heap log].
    rewrite list_lookup_total_middle by done.
    destruct (outcome rows ids) as [records|e] eqn:Hout; cbn [bind]; [|done].
    destruct (divide_returns (map (uncurry seller_stock) records) 100)
      as [batches Hb]; [lia|].
    rewrite run_bind. unfold lift at 1. change 100 with (Z.of_nat 100). rewrite Hb.
    rewrite run_bind.
    match goal with |- context [for_each batches ?body ?st1] =>
      destruct (for_each batches body st1) as [[[]|e] st2] eqn:Hsub; [|done] end.
    rewrite run_ret. intros [= <- <- <-].
    apply submit_all_stocks_inv in Hsub. subst st2.
    exists ids, batches. split_and!; [done| | | | |done|].
    + cbn [heap log set_list]. by rewrite <- app_assoc.
    + by apply (divide_concat (map (uncurry seller_stock) records) 100); [lia|].
    + by apply (divide_bounded (map (uncurry seller_stock) records) 100); [lia|].
    + rewrite map_offer_id_seller. by apply (outcome_perm rows).
    + intros stock [Hnz Hin]%list_elem_of_filter.
      apply list_elem_of_fmap in Hin as ([c z] & -> & Hp).
      destruct (outcome_nonzero_from_row _ _ _ _ Hout Hp Hnz) as (watch & Hw & Hc & _).
      by exists watch.
Qed.

(** The coroutine returns on the scenario of the stock builder. *)
Lemma seller_upload_stocks_awaited_witness :
  ∃ result st',
    (Seller.upload_stocks (Sample.world_of Sample.rows Sample.ids) Sample.rows "x" "x"
       ≫= await) Sample.start
    = (Ok result, st').
Proof.
  apply (proj1 (seller_upload_stocks_awaited
                  (Sample.world_of Sample.rows Sample.ids) Sample.rows "x" "x"
                  Sample.start) Sample.ids);
    [reflexivity| |reflexivity].
  assert (matching Sample.rows Sample.ids = Sample.rows) as -> by by vm_compute.
  repeat constructor; eexists; by vm_compute.
Defined.

(** X11: the coroutine of [upload_stocks] of market.py, awaited. It returns
    when the listing of the offer ids succeeds, every submission of stocks
    succeeds and the quantity of every row whose code is among the listed
    ids is a sentinel or a value that [int] converts. Whenever it returns,
    it has listed the offer ids and submitted the stock records, in order,
    in batches of at most 2000; the skus of the records are the listed ids,
    up to their order; and it returns the records together with those of
    them whose first item has a count that is not 0, each of which has the
    code of an inventory row as its sku. *)
Theorem market_upload_stocks_awaited
    (w : Market.world) (rows : list row) (campaign_id market_token warehouse_id : string)
    (mst : Market.state) :
  (∀ ids, offer_ids_of w (log mst) campaign_id market_token = Ok ids →
          quantities_ok (matching rows ids) →
          (∀ trace batch, stocks_reply w trace batch campaign_id market_token = Ok tt) →
          ∃ result mst',
            (Market.upload_stocks w rows campaign_id market_token warehouse_id ≫= await) mst
            = (Ok result, mst'))
  ∧ (∀ not_empty stocks mst',
       (Market.upload_stocks w rows campaign_id market_token warehouse_id ≫= await) mst
       = (Ok (not_empty, stocks), mst') →
       ∃ ids batches,
         offer_ids_of w (log mst) campaign_id market_token = Ok ids
         ∧ log mst' = log mst ++ FetchOfferIds campaign_id market_token
                                 :: map (λ b, SubmitStocks b campaign_id market_token) batches
         ∧ concat batches = stocks
         ∧ Forall (λ b, (1 ≤ length b ≤ 2000)%nat) batches
         ∧ map Market.Stock.sku stocks ≡ₚ ids
         ∧ not_empty = filter (λ stock, market_count stock ≠ Some 0) stocks
         ∧ (∀ stock, stock ∈ not_empty →
              ∃ watch, watch ∈ rows ∧ code watch = Market.Stock.sku stock)).
Proof.
  set (date := utcnow w (log mst ++ [FetchOfferIds campaign_id market_token]) +:+ "Z").
  split.
  - intros ids Hids Hq Hok.
    destruct (outcome_total rows ids Hq) as [records Hout].
    set (stocks := map (uncurry (market_stock warehouse_id date)) records).
    destruct (divide_returns stocks 2000) as [batches Hb]; [lia|].
    do 2 eexists.
    rewrite run_bind. unfold Market.upload_stocks, async_call. rewrite run_ret.
    unfold await. rewrite run_bind, (run_get_offer_ids w _ _ ids mst Hids).
    rewrite run_bind, market_create_stocks_run. cbn [heap log].
    rewrite list_lookup_total_middle by done. rewrite Hout. cbn [bind].
    fold date. fold stocks.
    rewrite run_bind. unfold lift at 1, Market.divide.
    change 2000 with (Z.of_nat 2000). rewrite Hb.
    rewrite run_bind, run_submit_all_stocks by done. by rewrite run_ret.
  - intros not_empty stocks0 mst'.
    rewrite run_bind. unfold Market.upload_stocks, async_call. rewrite run_ret.
    unfold await. rewrite run_bind.
    destruct (offer_ids_of w (log mst) campaign_id market_token) as [ids|e] eqn:Hids.
    2:{ destruct (run_get_offer_ids_raise w _ _ e mst Hids) as [st1 ->]. done. }
    rewrite (run_get_offer_ids w _ _ ids mst Hids).
    rewrite run_bind, market_create_stocks_run. cbn [heap log].
    rewrite list_lookup_total_middle by done.
    destruct (outcome rows ids) as [records|e] eqn:Hout; cbn [bind]; [|done].
    fold date.
    set (stocks := map (uncurry (market_stock warehouse_id date)) records).
    destruct (divide_returns stocks 2000) as [batches Hb]; [lia|].
    rewrite run_bind. unfold lift at 1, Market.divide.
    change 2000 with (Z.of_nat 2000). rewrite Hb.
    rewrite run_bind.
    match goal with |- context [for_each batches ?body ?st1] =>
      destruct (for_each batches body st1) as [[[]|e] st2] eqn:Hsub; [|done] end.
    rewrite run_ret. intros [= <- <- <-].
    apply submit_all_stocks_inv in Hsub. subst st2.
    exists ids, batches. split_and!; [done| | | | |done|].
    + cbn [heap log set_list]. by rewrite <- app_assoc.
    + by apply (divide_concat stocks 2000); [lia|].
    + by apply (divide_bounded stocks 2000); [lia|].
    + unfold stocks. rewrite map_sku_market. by apply (outcome_perm rows).
    + intros stock [Hnz Hin]%list_elem_of_filter.
      apply list_elem_of_fmap in Hin as ([c z] & -> & Hp).
      assert (z ≠ 0) as Hz by (intros ->; by apply Hnz).
      destruct (outcome_nonzero_from_row _ _ _ _ Hout Hp Hz) as (watch & Hw & Hc & _).
      by exists watch.
Qed.

(** The coroutine returns on the scenario of the stock builder. *)
Lemma market_upload_stocks_awaited_witness :
  ∃ result mst',
    (Market.upload_stocks (Sample.world_of Sample.rows Sample.ids) Sample.rows
       "x" "x" "7" ≫= await) Sample.start
    = (Ok result, mst').
Proof.
  apply (proj1 (market_upload_stocks_awaited
                  (Sample.world_of Sample.rows Sample.ids) Sample.rows "x" "x" "7"
                  Sample.start) Sample.ids);
    [reflexivity| |reflexivity].
  assert (matching Sample.rows Sample.ids = Sample.rows) as -> by by vm_compute.
  repeat constructor; eexists; by vm_compute.
Defined.

(** ** The listing of the offer ids of seller.py *)

Import Json.

Lemma each_get_dicts key (ds : list (list (string * json))) :
  each (Json.get key) (map JDict ds) = Ok (map (entry key) ds).
Proof. induction ds as [|d ds IH]; simpl; [done|]. by rewrite IH. Qed.

Lemma removelast_cons2 {A} (x y : A) l :
  removelast (x :: y :: l) = x :: removelast (y :: l).
Proof. reflexivity. Qed.

Section SellerPages.
Variable post : nat → json → string → string → result json.
Variables client_id seller_token : string.

Lemma seller_turn_page response some_prod items total last_id product_list :
  Json.get "result" response = Ok some_prod →
  Json.get "items" some_prod = Ok (JList items) →
  Json.get "total" some_prod = Ok total →
  Json.get "last_id" some_prod = Ok last_id →
  SellerListing.turn some_prod product_list = Ok (product_list ++ items, total, last_id).
Proof. intros _ Hi Ht Hl. unfold SellerListing.turn. by rewrite Hi, Ht, Hl. Qed.

Lemma seller_listing_serves total pages :
  ∀ k cursor product_list asked fuel,
    length asked = k →
    SellerListing.serves post client_id seller_token total k cursor
      (Z.of_nat (length product_list)) pages →
    (length pages ≤ fuel)%nat →
    SellerListing.listing post fuel client_id seller_token cursor product_list asked
    = (Some (Ok (product_list ++ concat (map fst pages))),
       asked ++ SellerListing.cursors cursor pages).
Proof.
  induction pages as [|[items last_id] pages IH];
    intros k cursor product_list asked fuel Hk Hserves Hfuel; [done|].
  destruct fuel as [|fuel]; [simpl in Hfuel; lia|].
  destruct Hserves as [(response & Hpost & some_prod & Hr & Hi & Ht & Hl) Hrest].
  cbn [SellerListing.listing]. unfold SellerListing.get_product_list.
  rewrite Hk, Hpost. cbn [bind]. rewrite Hr.
  rewrite (seller_turn_page response some_prod items (JInt total) last_id) by done.
  cbn [eq_int]. rewrite length_app, Nat2Z.inj_add.
  destruct pages as [|page pages].
  - rewrite (proj2 (Z.eqb_eq _ _)) by lia. simpl. by rewrite app_nil_r.
  - destruct Hrest as [Hne Hrest].
    rewrite (proj2 (Z.eqb_neq _ _)) by lia.
    rewrite (IH (S k) last_id (product_list ++ items) (asked ++ [cursor]) fuel).
    + unfold SellerListing.cursors. rewrite removelast_cons2.
      cbn [map concat fst snd]. by rewrite <- !app_assoc.
    + rewrite length_app. simpl. lia.
    + by rewrite length_app, Nat2Z.inj_add.
    + simpl in Hfuel |- *. lia.
Qed.

Lemma seller_listing_without_total :
  (∀ k cursor, ∃ response some_prod items,
      post k cursor client_id seller_token = Ok response
      ∧ Json.get "result" response = Ok some_prod
      ∧ Json.get "items" some_prod = Ok (JList items)
      ∧ Json.get "total" some_prod = Ok JNull) →
  ∀ fuel cursor product_list asked,
    ∃ asked', SellerListing.listing post fuel client_id seller_token cursor
                product_list asked = (None, asked')
              ∧ length asked' = (length asked + fuel)%nat.
Proof.
  intros Hpost. induction fuel as [|fuel IH]; intros cursor product_list asked.
  - exists asked. split; [done|lia].
  - destruct (Hpost (length asked) cursor) as (response & some_prod & items & Hp & Hr & Hi & Ht).
    cbn [SellerListing.listing]. unfold SellerListing.get_product_list.
    rewrite Hp. cbn [bind]. rewrite Hr.
    destruct some_prod as [| | | |d]; try done.
    rewrite (seller_turn_page response (JDict d) items JNull (entry "last_id" d)) by done.
    cbn [eq_int].
    destruct (IH (entry "last_id" d) (product_list ++ items) (asked ++ [cursor]))
      as (asked' & -> & Hlen).
    exists asked'. split; [done|]. rewrite Hlen, length_app. simpl. lia.
Qed.

End SellerPages.

(** X12: when the service serves a chain of pages, each reporting the same
    total, and the number of products collected reaches that total with
    the last page and not before, [get_offer_ids] of seller.py (given fuel
    for as many requests as there are pages) asks for the first page with
    the empty cursor and for each further page with the cursor of the page
    before, and returns the offer ids of the products of all the pages, in
    order; a product without an offer id gives [None] in the list. *)
Theorem seller_get_offer_ids_follows_pages
    (post : nat → json → string → string → result json)
    (client_id seller_token : string) (total : Z)
    (pages : list (list json * json)) (fuel : nat) :
  SellerListing.serves post client_id seller_token total 0 (JStr "") 0 pages →
  (length pages ≤ fuel)%nat →
  SellerListing.get_offer_ids post fuel client_id seller_token []
  = (Some (each (Json.get "offer_id") (concat (map fst pages))),
     SellerListing.cursors (JStr "") pages)
  ∧ (∀ products, concat (map fst pages) = map JDict products →
       (SellerListing.get_offer_ids post fuel client_id seller_token []).1
       = Some (Ok (map (entry "offer_id") products))).
Proof.
  intros Hserves Hfuel. unfold SellerListing.get_offer_ids.
  rewrite (seller_listing_serves post client_id seller_token total pages 0%nat
             (JStr "") [] [] fuel) by done.
  simpl. split; [done|]. intros products ->. by rewrite each_get_dicts.
Qed.

(** Two pages of three products. *)
Lemma seller_get_offer_ids_follows_pages_witness :
  SellerListing.get_offer_ids ListingSample.seller_service 2 "x" "y" []
  = (Some (each (Json.get "offer_id") (concat (map fst ListingSample.seller_pages))),
     SellerListing.cursors (JStr "") ListingSample.seller_pages)
  ∧ (∀ products, concat (map fst ListingSample.seller_pages) = map JDict products →
       (SellerListing.get_offer_ids ListingSample.seller_service 2 "x" "y" []).1
       = Some (Ok (map (entry "offer_id") products))).
Proof.
  apply (seller_get_offer_ids_follows_pages ListingSample.seller_service
           "x" "y" 3 ListingSample.seller_pages 2).
  - simpl. split.
    + eexists. split; [reflexivity|]. eexists. by split_and!.
    + split; [lia|]. split; [|reflexivity].
      eexists. split; [reflexivity|]. eexists. by split_and!.
  - simpl. lia.
Defined.

Example seller_get_offer_ids_sample :
  SellerListing.get_offer_ids ListingSample.seller_service 5 "x" "y" []
  = (Some (Ok [JStr "a"; JStr "b"; JStr "c"]), [JStr ""; JStr "c1"]).
Proof. by vm_compute. Qed.

(** X13: when no reply of the service carries a total (the others being
    well formed), the listing of seller.py never ends: whatever the number
    of requests allowed, it uses them all and has not returned. *)
Theorem seller_get_offer_ids_without_total_never_ends
    (post : nat → json → string → string → result json)
    (client_id seller_token : string) (fuel : nat) :
  (∀ k cursor, ∃ response some_prod items,
      post k cursor client_id seller_token = Ok response
      ∧ Json.get "result" response = Ok some_prod
      ∧ Json.get "items" some_prod = Ok (JList items)
      ∧ Json.get "total" some_prod = Ok JNull) →
  ∃ asked, SellerListing.get_offer_ids post fuel client_id seller_token [] = (None, asked)
           ∧ length asked = fuel.
Proof.
  intros Hpost. unfold SellerListing.get_offer_ids.
  destruct (seller_listing_without_total post client_id seller_token Hpost
              fuel (JStr "") [] []) as (asked & -> & Hlen).
  by exists asked.
Qed.

(** A service without totals, asked a hundred times. *)
Lemma seller_get_offer_ids_without_total_never_ends_witness :
  ∃ asked, SellerListing.get_offer_ids ListingSample.seller_service_without_total
             100 "x" "y" [] = (None, asked)
           ∧ length asked = 100%nat.
Proof.
  apply (seller_get_offer_ids_without_total_never_ends
           ListingSample.seller_service_without_total "x" "y" 100).
  intros k cursor. do 3 eexists. by split_and!.
Defined.

(** X14: the first request of the listing of seller.py decides as follows.
    An exception of the request is raised by [get_offer_ids] after that one
    request; a reply without a result raises [AttributeError]; a result
    without items raises [TypeError]. *)
Theorem seller_get_offer_ids_first_reply
    (post : nat → json → string → string → result json)
    (client_id seller_token : string) (fuel : nat) :
  (∀ e, post 0%nat (JStr "") client_id seller_token = Raise e →
     SellerListing.get_offer_ids post (S fuel) client_id seller_token []
     = (Some (Raise e), [JStr ""]))
  ∧ (∀ response, post 0%nat (JStr "") client_id seller_token = Ok (JDict response) →
     entry "result" response = JNull →
     SellerListing.get_offer_ids post (S fuel) client_id seller_token []
     = (Some (Raise AttributeError), [JStr ""]))
  ∧ (∀ response some_prod,
     post 0%nat (JStr "") client_id seller_token = Ok (JDict response) →
     entry "result" response = JDict some_prod →
     entry "items" some_prod = JNull →
     SellerListing.get_offer_ids post (S fuel) client_id seller_token []
     = (Some (Raise TypeError), [JStr ""])).
Proof.
  unfold SellerListing.get_offer_ids. cbn [SellerListing.listing].
  unfold SellerListing.get_product_list. simpl. split_and!.
  - by intros e ->.
  - intros response -> Hr. simpl. rewrite Hr. done.
  - intros response some_prod -> Hr Hi. simpl. rewrite Hr.
    unfold SellerListing.turn. simpl. rewrite Hi. done.
Qed.

(** ** The listing of the offer ids of market.py *)

Lemma each_shop_sku (offers : list (list (string * json))) :
  each MarketListing.shop_sku (map (λ offer, JDict [("offer", JDict offer)]) offers)
  = Ok (map (entry "shopSku") offers).
Proof. induction offers as [|d ds IH]; simpl; [done|]. by rewrite IH. Qed.

Section MarketPages.
Variable fetch : nat → json → string → string → result json.
Variables campaign_id market_token : string.

Lemma market_turn_page some_prod paging entries next product_list :
  Json.get "offerMappingEntries" some_prod = Ok (JList entries) →
  Json.get "paging" some_prod = Ok paging →
  Json.get "nextPageToken" paging = Ok next →
  MarketListing.turn some_prod product_list = Ok (product_list ++ entries, next).
Proof. intros He Hp Hn. unfold MarketListing.turn. rewrite He, Hp. simpl. by rewrite Hn. Qed.

Lemma market_listing_serves pages :
  ∀ k page product_list asked fuel,
    length asked = k →
    MarketListing.serves fetch campaign_id market_token k page pages →
    (length pages ≤ fuel)%nat →
    MarketListing.listing fetch fuel campaign_id market_token page product_list asked
    = (Some (Ok (product_list ++ concat (map fst pages))),
       asked ++ MarketListing.cursors page pages).
Proof.
  induction pages as [|[entries next] pages IH];
    intros k page product_list asked fuel Hk Hserves Hfuel; [done|].
  destruct fuel as [|fuel]; [simpl in Hfuel; lia|].
  destruct Hserves as [(response & Hfetch & some_prod & paging & Hr & He & Hp & Hn) Hrest].
  cbn [MarketListing.listing]. unfold MarketListing.get_product_list.
  rewrite Hk, Hfetch. cbn [bind]. rewrite Hr.
  rewrite (market_turn_page some_prod paging entries next) by done.
  destruct pages as [|p pages].
  - rewrite Hrest. simpl. by rewrite app_nil_r.
  - destruct Hrest as [Htrue Hrest]. rewrite Htrue. cbn [negb].
    rewrite (IH (S k) next (product_list ++ entries) (asked ++ [page]) fuel).
    + unfold MarketListing.cursors. rewrite removelast_cons2.
      cbn [map concat fst snd]. by rewrite <- !app_assoc.
    + rewrite length_app. simpl. lia.
    + done.
    + simpl in Hfuel |- *. lia.
Qed.

Lemma market_listing_without_end :
  (∀ k page, ∃ response entries next,
      fetch k page campaign_id market_token = Ok response
      ∧ MarketListing.page_of response entries next
      ∧ truthy next = true) →
  ∀ fuel page product_list asked,
    ∃ asked', MarketListing.listing fetch fuel campaign_id market_token page
                product_list asked = (None, asked')
              ∧ length asked' = (length asked + fuel)%nat.
Proof.
  intros Hfetch. induction fuel as [|fuel IH]; intros page product_list asked.
  - exists asked. split; [done|lia].
  - destruct (Hfetch (length asked) page)
      as (response & entries & next & Hf & (some_prod & paging & Hr & He & Hp & Hn) & Ht).
    cbn [MarketListing.listing]. unfold MarketListing.get_product_list.
    rewrite Hf. cbn [bind]. rewrite Hr.
    rewrite (market_turn_page some_prod paging entries next) by done.
    rewrite Ht. cbn [negb].
    destruct (IH next (product_list ++ entries) (asked ++ [page])) as (asked' & -> & Hlen).
    exists asked'. split; [done|]. rewrite Hlen, length_app. simpl. lia.
Qed.

End MarketPages.

(** X15: when the service serves a chain of pages of which only the last
    has a token of the next page that is missing or empty,
    [get_offer_ids] of market.py (given fuel for as many requests as there
    are pages) asks for the first page with the empty token and for each
    further page with the token of the page before, and returns the
    [shopSku] of the entries of all the pages, in order. *)
Theorem market_get_offer_ids_follows_tokens
    (fetch : nat → json → string → string → result json)
    (campaign_id market_token : string)
    (pages : list (list json * json)) (fuel : nat) :
  MarketListing.serves fetch campaign_id market_token 0 (JStr "") pages →
  (length pages ≤ fuel)%nat →
  MarketListing.get_offer_ids fetch fuel campaign_id market_token []
  = (Some (each MarketListing.shop_sku (concat (map fst pages))),
     MarketListing.cursors (JStr "") pages)
  ∧ (∀ offers,
       concat (map fst pages) = map (λ offer, JDict [("offer", JDict offer)]) offers →
       (MarketListing.get_offer_ids fetch fuel campaign_id market_token []).1
       = Some (Ok (map (entry "shopSku") offers))).
Proof.
  intros Hserves Hfuel. unfold MarketListing.get_offer_ids.
  rewrite (market_listing_serves fetch campaign_id market_token pages 0%nat
             (JStr "") [] [] fuel) by done.
  simpl. split; [done|]. intros offers ->. by rewrite each_shop_sku.
Qed.

(** Two pages of three entries. *)
Lemma market_get_offer_ids_follows_tokens_witness :
  MarketListing.get_offer_ids ListingSample.market_service 2 "x" "y" []
  = (Some (each MarketListing.shop_sku (concat (map fst ListingSample.market_pages))),
     MarketListing.cursors (JStr "") ListingSample.market_pages)
  ∧ (∀ offers,
       concat (map fst ListingSample.market_pages)
       = map (λ offer, JDict [("offer", JDict offer)]) offers →
       (MarketListing.get_offer_ids ListingSample.market_service 2 "x" "y" []).1
       = Some (Ok (map (entry "shopSku") offers))).
Proof.
  apply (market_get_offer_ids_follows_tokens ListingSample.market_service
           "x" "y" ListingSample.market_pages 2).
  - simpl. split.
    + eexists. split; [reflexivity|]. do 2 eexists. by split_and!.
    + split; [reflexivity|]. split; [|reflexivity].
      eexists. split; [reflexivity|]. do 2 eexists. by split_and!.
  - simpl. lia.
Defined.

Example market_get_offer_ids_sample :
  MarketListing.get_offer_ids ListingSample.market_service 5 "x" "y" []
  = (Some (Ok [JStr "a"; JStr "b"; JStr "c"]), [JStr ""; JStr "t1"]).
Proof. by vm_compute. Qed.

(** X16: when every reply of the service has a token of a next page that
    is neither missing nor empty, the listing of market.py never ends:
    whatever the number of requests allowed, it uses them all and has not
    returned. *)
Theorem market_get_offer_ids_without_last_page_never_ends
    (fetch : nat → json → string → string → result json)
    (campaign_id market_token : string) (fuel : nat) :
  (∀ k page, ∃ response entries next,
      fetch k page campaign_id market_token = Ok response
      ∧ MarketListing.page_of response entries next
      ∧ truthy next = true) →
  ∃ asked, MarketListing.get_offer_ids fetch fuel campaign_id market_token [] = (None, asked)
           ∧ length asked = fuel.
Proof.
  intros Hfetch. unfold MarketListing.get_offer_ids.
  destruct (market_listing_without_end fetch campaign_id market_token Hfetch
              fuel (JStr "") [] []) as (asked & -> & Hlen).
  by exists asked.
Qed.

(** A service that always names a next page, asked a hundred times. *)
Lemma market_get_offer_ids_without_last_page_never_ends_witness :
  ∃ asked, MarketListing.get_offer_ids ListingSample.market_service_without_end
             100 "x" "y" [] = (None, asked)
           ∧ length asked = 100%nat.
Proof.
  apply (market_get_offer_ids_without_last_page_never_ends
           ListingSample.market_service_without_end "x" "y" 100).
  intros k page. do 3 eexists. split; [reflexivity|]. split.
  - do 2 eexists. by split_and!.
  - reflexivity.
Defined.

(** X17: the first request of the listing of market.py decides as
    follows. An exception of the request is raised by [get_offer_ids] after
    that one request; a result without entries raises [TypeError]; a
    result with entries and without a ["paging"] part raises
    [AttributeError] instead of ending the listing. *)
Theorem market_get_offer_ids_first_reply
    (fetch : nat → json → string → string → result json)
    (campaign_id market_token : string) (fuel : nat) :
  (∀ e, fetch 0%nat (JStr "") campaign_id market_token = Raise e →
     MarketListing.get_offer_ids fetch (S fuel) campaign_id market_token []
     = (Some (Raise e), [JStr ""]))
  ∧ (∀ response some_prod,
     fetch 0%nat (JStr "") campaign_id market_token = Ok (JDict response) →
     entry "result" response = JDict some_prod →
     entry "offerMappingEntries" some_prod = JNull →
     MarketListing.get_offer_ids fetch (S fuel) campaign_id market_token []
     = (Some (Raise TypeError), [JStr ""]))
  ∧ (∀ response some_prod entries,
     fetch 0%nat (JStr "") campaign_id market_token = Ok (JDict response) →
     entry "result" response = JDict some_prod →
     entry "offerMappingEntries" some_prod = JList entries →
     entry "paging" some_prod = JNull →
     MarketListing.get_offer_ids fetch (S fuel) campaign_id market_token []
     = (Some (Raise AttributeError), [JStr ""])).
Proof.
  unfold MarketListing.get_offer_ids. cbn [MarketListing.listing].
  unfold MarketListing.get_product_list. simpl. split_and!.
  - by intros e ->.
  - intros response some_prod -> Hr He. simpl. rewrite Hr.
    unfold MarketListing.turn. simpl. rewrite He. done.
  - intros response some_prod entries -> Hr He Hp. simpl. rewrite Hr.
    unfold MarketListing.turn. simpl. rewrite He. simpl. rewrite Hp. done.
Qed.

(** ** market.py: a failure for the first campaign *)

(** X18: when the listing of the offer ids of the FBS campaign raises,
    [main] of market.py prints one message and returns; the DBS campaign
    is never listed and nothing is submitted for it. *)
Theorem market_main_stops_at_first_campaign
    (w : Market.world) (mst : Market.state)
    (market_token campaign_fbs_id campaign_dbs_id warehouse_fbs_id warehouse_dbs_id : string)
    (watch_remnants : list row) (e : exn) :
  environ w "MARKET_TOKEN" = Some market_token →
  environ w "FBS_ID" = Some campaign_fbs_id →
  environ w "DBS_ID" = Some campaign_dbs_id →
  environ w "WAREHOUSE_FBS_ID" = Some warehouse_fbs_id →
  environ w "WAREHOUSE_DBS_ID" = Some warehouse_dbs_id →
  feed w (log mst) = Ok watch_remnants →
  offer_ids_of w (log mst ++ [DownloadStock]) campaign_fbs_id market_token = Raise e →
  ∃ error text,
    Market.main w mst
    = (Ok tt,
       {| heap := heap mst;
          log := log mst ++ [DownloadStock;
                             FetchOfferIds campaign_fbs_id market_token;
                             Print error text] |}).
Proof.
  intros Hmt Hfbs Hdbs Hwf Hwd Hfeed Hids. unfold Market.main.
  rewrite run_bind, (run_env_str w _ _ _ Hmt).
  rewrite run_bind, (run_env_str w _ _ _ Hfbs).
  rewrite run_bind, (run_env_str w _ _ _ Hdbs).
  rewrite run_bind, (run_env_str w _ _ _ Hwf).
  rewrite run_bind, (run_env_str w _ _ _ Hwd).
  rewrite run_bind. unfold download_stock, call at 1. rewrite Hfeed.
  unfold try_except, Market.main_try.
  rewrite run_bind. unfold get_offer_ids at 1. rewrite run_bind.
  unfold call at 1. cbn [heap log]. rewrite Hids.
  destruct e; do 2 eexists; unfold Market.main_except, print, emit; cbn [heap log];
    rewrite <- !app_assoc; reflexivity.
Qed.

(** A world in which no campaign can be listed. *)
Lemma market_main_stops_at_first_campaign_witness :
  ∃ error text,
    Market.main world_listing_down Sample.start
    = (Ok tt,
       {| heap := [];
          log := [] ++ [DownloadStock; FetchOfferIds "x" "x"; Print error text] |}).
Proof.
  apply (market_main_stops_at_first_campaign world_listing_down Sample.start
           "x" "x" "x" "x" "x" Sample.rows HTTPError); reflexivity.
Defined.
